(** * Patient risk scoring and resilient fetching: a shallow embedding

    This development embeds the JavaScript sources [riskScoring.js],
    [apiClient.js] and [index.js] and proves the properties stated about
    them.

    - Numbers are IEEE binary64 values, represented by their exact rational
      value ([Finite q]) together with [NaN] and the two infinities; the
      sign of zero is not tracked (no operation used here observes it).
      Decimal text is converted by correct rounding (round to nearest,
      ties to even), as the engines do.
    - Strings are sequences of ASCII characters; case mapping and white
      space are the ASCII fragments of the language's definitions.
    - Values received from the API are JSON values: [undefined] (an absent
      property), [null], booleans, numbers, strings, arrays and plain
      objects. *)

From Stdlib Require Import ZArith QArith Qround Bool List String Ascii Lia Lqa
  DecimalString.
Import ListNotations.
Open Scope Z_scope.

(** ** Binary64 numbers *)

Inductive Number : Type :=
| NaN
| Infinity (negative : bool)
| Finite (q : Q).

(** [pow2 k] is the rational [2^k], for any integer [k]. *)
Definition pow2 (k : Z) : Q :=
  if 0 <=? k then inject_Z (2 ^ k) else (1 # Z.to_pos (2 ^ (- k)))%Q.

(** [pow10 k] is the rational [10^k]. *)
Definition pow10 (k : Z) : Q :=
  if 0 <=? k then inject_Z (10 ^ k) else (1 # Z.to_pos (10 ^ (- k)))%Q.

(** [binade x] is the integer [e] with [2^e <= x < 2^(e+1)], for [x > 0]. *)
Definition binade (x : Q) : Z :=
  let e0 := Z.log2 (Qnum x) - Z.log2 (Z.pos (Qden x)) in
  if Qle_bool (pow2 e0) x then e0 else e0 - 1.

(** Nearest integer to [num / den], ties to even ([den > 0]). *)
Definition rne (num den : Z) : Z :=
  let q := num / den in
  let r := num mod den in
  if 2 * r <? den then q
  else if den <? 2 * r then q + 1
  else if Z.even q then q else q + 1.

(** Exponent of the unit in the last place of the binary64 value nearest
    to [x > 0]: 53 significant bits, subnormals below [2^-1022]. *)
Definition ulp_exp (x : Q) : Z := Z.max (binade x - 52) (-1074).

Definition b64_pos (x : Q) : Number :=
  let sh := ulp_exp x in
  let m :=
    if 0 <=? sh then rne (Qnum x) (Z.pos (Qden x) * 2 ^ sh)
    else rne (Qnum x * 2 ^ (- sh)) (Z.pos (Qden x)) in
  let v := (inject_Z m * pow2 sh)%Q in
  if Qle_bool (pow2 1024) v then Infinity false else Finite (Qred v).

Definition num_neg (n : Number) : Number :=
  match n with
  | NaN => NaN
  | Infinity s => Infinity (negb s)
  | Finite q => Finite (- q)%Q
  end.

(** The Number value for a real: the binary64 value nearest to [x]. *)
Definition b64 (x : Q) : Number :=
  match Qnum x with
  | Z0 => Finite 0%Q
  | Zpos _ => b64_pos x
  | Zneg _ => num_neg (b64_pos (- x)%Q)
  end.

Definition of_Z (z : Z) : Number := b64 (inject_Z z).

(** Number literals of the sources. *)
Definition lit (num : Z) (den : positive) : Number := b64 (num # den)%Q.

(** Relational operators; every comparison with [NaN] is false. *)
Definition num_lt (a b : Number) : bool :=
  match a, b with
  | NaN, _ | _, NaN => false
  | Infinity true, Infinity true => false
  | Infinity true, _ => true
  | _, Infinity true => false
  | Infinity false, _ => false
  | _, Infinity false => true
  | Finite x, Finite y => negb (Qle_bool y x)
  end.

Definition num_le (a b : Number) : bool :=
  match a, b with
  | NaN, _ | _, NaN => false
  | _, _ => negb (num_lt b a)
  end.

Definition num_gt (a b : Number) : bool := num_lt b a.
Definition num_ge (a b : Number) : bool := num_le b a.

Definition isNaN (n : Number) : bool :=
  match n with NaN => true | _ => false end.

(** ToBoolean on numbers: zero and [NaN] are falsy. *)
Definition num_truthy (n : Number) : bool :=
  match n with
  | NaN => false
  | Infinity _ => true
  | Finite q => negb (Qeq_bool q 0)
  end.

(** ** Strings *)

Open Scope string_scope.
Open Scope Z_scope.

Definition code (c : ascii) : Z := Z.of_N (N_of_ascii c).

(** [\d]: the ASCII decimal digits. *)
Definition is_digit (c : ascii) : bool := (48 <=? code c) && (code c <=? 57).

Definition digit_value (c : ascii) : Z := code c - 48.

(** White space and line terminators stripped by [trim], [parseInt] and
    [parseFloat]: TAB, LF, VT, FF, CR and SPACE. *)
Definition is_space (c : ascii) : bool :=
  ((9 <=? code c) && (code c <=? 13)) || (code c =? 32).

Definition upper_char (c : ascii) : ascii :=
  if (97 <=? code c) && (code c <=? 122)
  then ascii_of_N (N_of_ascii c - 32) else c.

Fixpoint toUpperCase (s : string) : string :=
  match s with
  | EmptyString => EmptyString
  | String c s' => String (upper_char c) (toUpperCase s')
  end.

Fixpoint trimStart (s : string) : string :=
  match s with
  | EmptyString => EmptyString
  | String c s' => if is_space c then trimStart s' else s
  end.

Fixpoint trimEnd (s : string) : string :=
  match s with
  | EmptyString => EmptyString
  | String c s' =>
      match trimEnd s' with
      | EmptyString => if is_space c then EmptyString else String c EmptyString
      | r => String c r
      end
  end.

Definition trim (s : string) : string := trimEnd (trimStart s).

(** Longest prefix of decimal digits, and what follows it. *)
Fixpoint span_digits (s : string) : string * string :=
  match s with
  | EmptyString => (EmptyString, EmptyString)
  | String c s' =>
      if is_digit c
      then let (d, r) := span_digits s' in (String c d, r)
      else (EmptyString, s)
  end.

(** Value of a digit string read in base ten, most significant first. *)
Fixpoint digits_value_from (acc : Z) (s : string) : Z :=
  match s with
  | EmptyString => acc
  | String c s' => digits_value_from (10 * acc + digit_value c) s'
  end.

Definition digits_value (s : string) : Z := digits_value_from 0 s.

Definition is_empty (s : string) : bool :=
  match s with EmptyString => true | _ => false end.

(** [includes needle s]: [needle] occurs somewhere in [s] (an unanchored
    literal in a regular expression). *)
Fixpoint includes (needle s : string) : bool :=
  prefix needle s ||
  match s with
  | EmptyString => false
  | String _ s' => includes needle s'
  end.

(** [/^\d+$/.test(s)] *)
Definition all_digits (s : string) : bool :=
  let (d, r) := span_digits s in negb (is_empty d) && is_empty r.

(** [s.match(/^(\d+)\/(\d+)$/)]: the two captured groups. *)
Definition match_bp (s : string) : option (string * string) :=
  let (d1, r1) := span_digits s in
  match r1 with
  | String "/"%char r2 =>
      let (d2, r3) := span_digits r2 in
      if negb (is_empty d1) && negb (is_empty d2) && is_empty r3
      then Some (d1, d2) else None
  | _ => None
  end.

(** ** [parseInt(_, 10)] and [parseFloat] on strings *)

Definition signed (neg : bool) (n : Number) : Number :=
  if neg then num_neg n else n.

(** Splits an optional leading sign off. *)
Definition strip_sign (s : string) : bool * string :=
  match s with
  | String "-"%char r => (true, r)
  | String "+"%char r => (false, r)
  | _ => (false, s)
  end.

Definition parseInt10_string (input : string) : Number :=
  let (neg, body) := strip_sign (trimStart input) in
  let (z, _) := span_digits body in
  if is_empty z then NaN else signed neg (of_Z (digits_value z)).

(** Exponent part [e[+-]digits] at the front of [s], zero when absent. *)
Definition exponent_part (s : string) : Z :=
  match s with
  | String c r =>
      if (code c =? 101) || (code c =? 69) then
        let (neg, r') := strip_sign r in
        let (d, _) := span_digits r' in
        if is_empty d then 0
        else if neg then - digits_value d else digits_value d
      else 0
  | EmptyString => 0
  end.

(** The longest prefix of [s] that is an unsigned decimal literal, as
    (integer digits, fraction digits, exponent); [None] when there is none. *)
Definition scan_decimal (s : string) : option (string * string * Z) :=
  let (ip, r1) := span_digits s in
  match r1 with
  | String "."%char r2 =>
      let (fp, r3) := span_digits r2 in
      if is_empty ip && is_empty fp then None
      else Some (ip, fp, exponent_part r3)
  | _ =>
      if is_empty ip then None else Some (ip, EmptyString, exponent_part r1)
  end.

(** Mathematical value of a scanned literal. *)
Definition decimal_value (ip fp : string) (e : Z) : Q :=
  (inject_Z (digits_value (ip ++ fp)) * pow10 (e - Z.of_nat (String.length fp)))%Q.

Definition parseFloat_string (input : string) : Number :=
  let (neg, body) := strip_sign (trimStart input) in
  if prefix "Infinity" body then Infinity neg
  else match scan_decimal body with
       | Some (ip, fp, e) => signed neg (b64 (decimal_value ip fp e))
       | None => NaN
       end.

(** ** [Number::toString]

    The shortest decimal digits [s] (with [k] digits, scaled by
    [10^(n-k)]) that convert back to the number, the closest to it when
    several do, laid out in plain or exponent notation by the size of [n]. *)

Definition num_eqb (a b : Number) : bool :=
  match a, b with
  | Finite x, Finite y => Qeq_bool x y
  | Infinity s, Infinity t => Bool.eqb s t
  | _, _ => false
  end.

(** [decade v] is the integer [n] with [10^(n-1) <= v < 10^n], for a
    positive binary64 value [v]. *)
Definition decade (v : Q) : Z :=
  let a := (binade v * 30103) / 100000 in
  if Qle_bool (pow10 (a + 1)) v then a + 2
  else if Qle_bool (pow10 a) v then a + 1
  else a.

Fixpoint shortest_digits (fuel : nat) (k : Z) (v : Q) (n : Z) : Z * Z * Z :=
  match fuel with
  | O => (Qfloor (v / pow10 (n - k)), k, n)
  | S fuel' =>
      let scale := pow10 (n - k) in
      let t := (v / scale)%Q in
      let lo := Qfloor t in
      let hi := lo + 1 in
      let ok_lo := num_eqb (b64 (inject_Z lo * scale)) (Finite v) in
      let ok_hi := num_eqb (b64 (inject_Z hi * scale)) (Finite v) in
      let pick (s : Z) := if s =? 10 ^ k then (1, 1, n + 1) else (s, k, n) in
      match ok_lo, ok_hi with
      | true, false => pick lo
      | false, true => pick hi
      | true, true =>
          match (2 * t ?= inject_Z (lo + hi))%Q with
          | Lt => pick lo
          | Gt => pick hi
          | Eq => if Z.even lo then pick lo else pick hi
          end
      | false, false => shortest_digits fuel' (k + 1) v n
      end
  end.

Definition string_of_Z (z : Z) : string :=
  NilZero.string_of_uint (N.to_uint (Z.to_N z)).

Fixpoint zeros (n : nat) : string :=
  match n with O => EmptyString | S n' => String "0"%char (zeros n') end.

Definition format_digits (s k n : Z) : string :=
  let ds := string_of_Z s in
  if (k <=? n) && (n <=? 21) then
    ds ++ zeros (Z.to_nat (n - k))
  else if (0 <? n) && (n <=? 21) then
    substring 0 (Z.to_nat n) ds ++ "." ++
    substring (Z.to_nat n) (Z.to_nat (k - n)) ds
  else if (-6 <? n) && (n <=? 0) then
    "0." ++ zeros (Z.to_nat (- n)) ++ ds
  else
    let e := n - 1 in
    let sign := if e <? 0 then "-" else "+" in
    let mant :=
      if k =? 1 then ds
      else substring 0 1 ds ++ "." ++ substring 1 (Z.to_nat (k - 1)) ds in
    mant ++ "e" ++ sign ++ string_of_Z (Z.abs e).

Definition NumberToString_pos (v : Q) : string :=
  let '(s, k, n) := shortest_digits 17 1 v (decade v) in
  format_digits s k n.

Definition NumberToString (x : Number) : string :=
  match x with
  | NaN => "NaN"
  | Infinity false => "Infinity"
  | Infinity true => "-Infinity"
  | Finite q =>
      match Qnum q with
      | Z0 => "0"
      | Zpos _ => NumberToString_pos q
      | Zneg _ => "-" ++ NumberToString_pos (- q)
      end
  end.

(** ** Values

    What [JSON.parse] can produce, and [undefined] for an absent property.
    The number in [JNum] is a binary64 value. Objects are plain objects
    with no [toString] or [valueOf] property of their own (their string
    conversion is ["[object Object]"]); a property list is searched front
    to back, so a repeated key is listed once, with the value in effect. *)

#[local] Set Warnings "-register-all".

Inductive JsValue : Type :=
| JUndefined
| JNull
| JBool (b : bool)
| JNum (n : Number)
| JStr (s : string)
| JArr (elems : list JsValue)
| JObj (props : list (string * JsValue)).

(** ToBoolean *)
Definition truthy (v : JsValue) : bool :=
  match v with
  | JUndefined | JNull => false
  | JBool b => b
  | JNum n => num_truthy n
  | JStr s => negb (is_empty s)
  | JArr _ | JObj _ => true
  end.

(** [typeof v === 'string'] *)
Definition is_string (v : JsValue) : bool :=
  match v with JStr _ => true | _ => false end.

Definition is_null (v : JsValue) : bool :=
  match v with JNull => true | _ => false end.

Definition is_undefined (v : JsValue) : bool :=
  match v with JUndefined => true | _ => false end.

(** [v === ''] *)
Definition is_empty_string (v : JsValue) : bool :=
  match v with JStr s => is_empty s | _ => false end.

(** ToString; array elements are joined by commas, [null] and
    [undefined] elements printing as nothing. *)
Fixpoint ToString (v : JsValue) : string :=
  match v with
  | JUndefined => "undefined"
  | JNull => "null"
  | JBool true => "true"
  | JBool false => "false"
  | JNum n => NumberToString n
  | JStr s => s
  | JArr elems =>
      let elem (x : JsValue) :=
        match x with
        | JUndefined | JNull => EmptyString
        | _ => ToString x
        end in
      (fix join (l : list JsValue) : string :=
         match l with
         | [] => EmptyString
         | [x] => elem x
         | x :: rest => elem x ++ "," ++ join rest
         end) elems
  | JObj _ => "[object Object]"
  end.

Fixpoint lookup (key : string) (props : list (string * JsValue)) : JsValue :=
  match props with
  | [] => JUndefined
  | (k, v) :: rest => if String.eqb k key then v else lookup key rest
  end.

(** [v.key] for a key that no built-in prototype defines; reading a
    property of a primitive or of an array gives [undefined]. *)
Definition get (v : JsValue) (key : string) : JsValue :=
  match v with
  | JObj props => lookup key props
  | _ => JUndefined
  end.

Definition parseInt10 (v : JsValue) : Number := parseInt10_string (ToString v).
Definition parseFloat (v : JsValue) : Number := parseFloat_string (ToString v).

(** ** riskScoring.js *)

Record BP : Type := { systolic : Number; diastolic : Number }.

Record Risk : Type := { score : Z; hasIssue : bool }.

Definition bp_invalid_tokens : list string :=
  ["INVALID"; "N/A"; "NULL"; "UNDEFINED"; "ERROR"].

Definition temp_invalid_tokens : list string :=
  ["INVALID"; "ERROR"; "TEMP_ERROR"; "N/A"; "NULL"; "UNDEFINED"].

Definition age_invalid_tokens : list string :=
  ["UNKNOWN"; "INVALID"; "ERROR"; "NA"; "NULL"; "UNDEFINED"].

(** [s.match(/^(t1|t2|...)$/)] *)
Definition matches_token (tokens : list string) (s : string) : bool :=
  existsb (String.eqb s) tokens.

(** [s.match(/t1|t2|.../)] *)
Definition contains_token (tokens : list string) (s : string) : bool :=
  existsb (fun t => includes t s) tokens.

Definition parseBP (bp : JsValue) : option BP :=
  match bp with
  | JStr s =>
      if is_empty s then None
      else if matches_token bp_invalid_tokens (toUpperCase s) then None
      else
        match match_bp s with
        | None => None
        | Some (g1, g2) =>
            let systolic := parseInt10_string g1 in
            let diastolic := parseInt10_string g2 in
            if isNaN systolic || isNaN diastolic then None
            else Some {| systolic := systolic; diastolic := diastolic |}
        end
  | _ => None
  end.

(** The first declaration of [getBPRisk] (scores 1 to 4); the later
    declaration of the same name replaces it. *)
Definition getBPRisk_first (bp : JsValue) : Risk :=
  match parseBP bp with
  | None => {| score := 0; hasIssue := true |}
  | Some {| systolic := systolic; diastolic := diastolic |} =>
      if num_lt systolic (of_Z 120) && num_lt diastolic (of_Z 80) then
        {| score := 1; hasIssue := false |}
      else if num_ge systolic (of_Z 120) && num_le systolic (of_Z 129)
              && num_lt diastolic (of_Z 80) then
        {| score := 2; hasIssue := false |}
      else if (num_ge systolic (of_Z 130) && num_le systolic (of_Z 139))
              || (num_ge diastolic (of_Z 80) && num_le diastolic (of_Z 89)) then
        {| score := 3; hasIssue := false |}
      else if num_ge systolic (of_Z 140) || num_ge diastolic (of_Z 90) then
        {| score := 4; hasIssue := false |}
      else {| score := 1; hasIssue := false |}
  end.

(** The declaration in effect. *)
Definition getBPRisk (bp : JsValue) : Risk :=
  match parseBP bp with
  | None => {| score := 0; hasIssue := true |}
  | Some {| systolic := systolic; diastolic := diastolic |} =>
      if num_ge systolic (of_Z 140) || num_ge diastolic (of_Z 90) then
        {| score := 3; hasIssue := false |}
      else if (num_ge systolic (of_Z 130) && num_le systolic (of_Z 139))
              || (num_ge diastolic (of_Z 80) && num_le diastolic (of_Z 89)) then
        {| score := 2; hasIssue := false |}
      else if num_ge systolic (of_Z 120) && num_le systolic (of_Z 129)
              && num_lt diastolic (of_Z 80) then
        {| score := 1; hasIssue := false |}
      else if num_lt systolic (of_Z 120) && num_lt diastolic (of_Z 80) then
        {| score := 0; hasIssue := false |}
      else {| score := 0; hasIssue := false |}
  end.

Definition getTempRisk (temp : JsValue) : Risk :=
  if truthy temp && is_string temp
     && matches_token temp_invalid_tokens (toUpperCase (ToString temp)) then
    {| score := 0; hasIssue := true |}
  else
    let tempNum := parseFloat temp in
    if is_null temp || is_undefined temp || is_empty_string temp
       || isNaN tempNum then
      {| score := 0; hasIssue := true |}
    else if num_le tempNum (lit 995 10) then {| score := 0; hasIssue := false |}
    else if num_ge tempNum (lit 996 10) && num_le tempNum (lit 1009 10) then
      {| score := 1; hasIssue := false |}
    else if num_ge tempNum (lit 1010 10) then {| score := 2; hasIssue := false |}
    else {| score := 0; hasIssue := false |}.

Definition getAgeRisk (age : JsValue) : Risk :=
  if truthy age && is_string age
     && (contains_token age_invalid_tokens (toUpperCase (ToString age))
         || negb (all_digits (trim (ToString age)))) then
    {| score := 0; hasIssue := true |}
  else if is_null age || is_undefined age || is_empty_string age then
    {| score := 0; hasIssue := true |}
  else
    let ageNum := parseInt10 age in
    if isNaN ageNum || num_le ageNum (of_Z 0) then
      {| score := 0; hasIssue := true |}
    else if num_gt ageNum (of_Z 65) then {| score := 2; hasIssue := false |}
    else if num_ge ageNum (of_Z 40) && num_le ageNum (of_Z 65) then
      {| score := 1; hasIssue := false |}
    else if num_lt ageNum (of_Z 40) then {| score := 0; hasIssue := false |}
    else {| score := 0; hasIssue := false |}.

Record Assessment : Type := {
  high_risk_patients : list JsValue;
  fever_patients : list JsValue;
  data_quality_issues : list JsValue
}.

Definition totalScore (patient : JsValue) : Z :=
  score (getBPRisk (get patient "blood_pressure"))
  + score (getTempRisk (get patient "temperature"))
  + score (getAgeRisk (get patient "age")).

(** One call of the [forEach] callback: the three lists after [patient]. *)
Definition processPatient (acc : Assessment) (patient : JsValue) : Assessment :=
  if negb (truthy patient) || negb (truthy (get patient "patient_id")) then acc
  else
    let bpRisk := getBPRisk (get patient "blood_pressure") in
    let tempRisk := getTempRisk (get patient "temperature") in
    let ageRisk := getAgeRisk (get patient "age") in
    let totalScore := score bpRisk + score tempRisk + score ageRisk in
    let high :=
      if 4 <=? totalScore
      then (high_risk_patients acc ++ [get patient "patient_id"])%list
      else high_risk_patients acc in
    let temp := parseFloat (get patient "temperature") in
    let fever :=
      if negb (isNaN temp) && num_ge temp (lit 996 10)
      then (fever_patients acc ++ [get patient "patient_id"])%list
      else fever_patients acc in
    let issues :=
      if hasIssue bpRisk || hasIssue tempRisk || hasIssue ageRisk
      then (data_quality_issues acc ++ [get patient "patient_id"])%list
      else data_quality_issues acc in
    {| high_risk_patients := high;
       fever_patients := fever;
       data_quality_issues := issues |}.

Definition processPatients (patients : list JsValue) : Assessment :=
  fold_left processPatient patients
    {| high_risk_patients := []; fever_patients := [];
       data_quality_issues := [] |}.

(** ** apiClient.js

    The network is a sequence of outcomes, one per HTTP request in the
    order the requests are issued; the program's requests and the time it
    spends in [delay] are recorded as it runs. *)

Inductive Outcome : Type :=
| Response (data : JsValue)        (* 2xx: [response.data] *)
| HttpError (status : Z)           (* rejected, [error.response.status] *)
| NetworkError.                    (* rejected, no [error.response] *)

Definition World : Type := nat -> Outcome.

(** [/patients?page=N&limit=5] and [/submit-assessment]. *)
Inductive Endpoint : Type :=
| PatientsPage (page : Z)
| SubmitAssessment (results : Assessment).

Record Net : Type := {
  requests : list Endpoint;   (* issued so far, oldest first *)
  waited : Z                  (* milliseconds spent in [delay] *)
}.

Definition net0 : Net := {| requests := []; waited := 0 |}.

Definition send (endpoint : Endpoint) (net : Net) : Net :=
  {| requests := (requests net ++ [endpoint])%list; waited := waited net |}.

Definition delay (ms : Z) (net : Net) : Net :=
  {| requests := requests net; waited := waited net + ms |}.

Inductive Error : Type :=
| RequestError (o : Outcome)       (* the rejection of the HTTP call *)
| PlainError (message : string).   (* [new Error(message)] *)

Inductive Completion (A : Type) : Type :=
| Return (a : A)
| Throw (e : Error).
Arguments Return {A} a.
Arguments Throw {A} e.

Record RetryState : Type := { attempt : Z; rateLimitAttempts : Z }.

Definition maxRateLimitRetries : Z := 8.

(** [error.response?.status] *)
Definition status_of (o : Outcome) : option Z :=
  match o with HttpError s => Some s | _ => None end.

Definition status_is (o : Outcome) (s : Z) : bool :=
  match status_of o with Some s' => s' =? s | None => false end.

(** [status && ...]: a status that is present and not zero. *)
Definition status_truthy (o : Outcome) : bool :=
  match status_of o with Some s => negb (s =? 0) | None => false end.

Inductive Step : Type :=
| Finish (c : Completion JsValue)
| Retry (st : RetryState) (ms : Z).   (* wait [ms], then loop again *)

(** The body of the [while] loop of [makeRequest] once the outcome of
    the HTTP call is known. *)
Definition afterCall (maxRetries : Z) (st : RetryState) (o : Outcome) : Step :=
  match o with
  | Response data => Finish (Return data)
  | _ =>
      if status_is o 429 then
        let rl := rateLimitAttempts st + 1 in
        if rl <=? maxRateLimitRetries
        then Retry {| attempt := attempt st; rateLimitAttempts := rl |} (3000 * rl)
        else Finish (Throw (RequestError o))
      else if status_is o 500 || status_is o 502 || status_is o 503 then
        if attempt st <? maxRetries
        then Retry {| attempt := attempt st + 1; rateLimitAttempts := 0 |}
                   (1000 * attempt st)
        else Finish (Throw (RequestError o))
      else if maxRetries <=? attempt st then Finish (Throw (RequestError o))
      else if status_truthy o && negb (status_is o 429) && negb (status_is o 500)
              && negb (status_is o 502) && negb (status_is o 503)
      then Finish (Throw (RequestError o))
      else Retry {| attempt := attempt st + 1; rateLimitAttempts := 0 |} 0
  end.

Definition failed_after (maxRetries : Z) : Error :=
  PlainError ("Request failed after " ++ NumberToString (of_Z maxRetries)
              ++ " attempts").

Fixpoint makeRequest_loop (fuel : nat) (world : World) (endpoint : Endpoint)
    (maxRetries : Z) (st : RetryState) (net : Net)
    : option (Completion JsValue * Net) :=
  match fuel with
  | O => None
  | S fuel' =>
      if (attempt st <=? maxRetries)
         || ((0 <? rateLimitAttempts st)
             && (rateLimitAttempts st <? maxRateLimitRetries))
      then
        let o := world (List.length (requests net)) in
        let net' := send endpoint net in
        match afterCall maxRetries st o with
        | Finish c => Some (c, net')
        | Retry st' ms =>
            makeRequest_loop fuel' world endpoint maxRetries st' (delay ms net')
        end
      else Some (Throw (failed_after maxRetries), net)
  end.

(** Iterations that always suffice: each one either raises [attempt]
    (at most [maxRetries] times) or raises [rateLimitAttempts] (at most
    eight times in a row). *)
Definition retry_fuel (maxRetries : Z) : nat :=
  Z.to_nat (9 * Z.max maxRetries 1 + 2).

Definition makeRequest (world : World) (endpoint : Endpoint) (maxRetries : Z)
    (net : Net) : option (Completion JsValue * Net) :=
  makeRequest_loop (retry_fuel maxRetries) world endpoint maxRetries
    {| attempt := 1; rateLimitAttempts := 0 |} net.

Record FetchState : Type := {
  allPatients : list JsValue;
  page : Z;
  hasMore : bool
}.

(** The three accepted envelopes: [data.data], [data.patients], or the
    array itself; [None] is the [null] the source starts from. *)
Definition extractPatients (data : JsValue) : option (list JsValue) :=
  match get data "data" with
  | JArr l => Some l
  | _ =>
      match get data "patients" with
      | JArr l => Some l
      | _ => match data with JArr l => Some l | _ => None end
      end
  end.

(** The [try] block of one iteration, given what [makeRequest] did. *)
Definition afterFetch (st : FetchState) (c : Completion JsValue) (net : Net)
    : Completion (FetchState * Net) :=
  match c with
  | Throw e => Throw e
  | Return data =>
      if negb (truthy data) then
        Return ({| allPatients := allPatients st; page := page st + 1;
                   hasMore := hasMore st |}, delay 1000 net)
      else
        match extractPatients data with
        | Some (p :: rest) =>
            let patients := p :: rest in
            Return ({| allPatients := (allPatients st ++ patients)%list;
                       page := page st + 1;
                       hasMore := 5 <=? Z.of_nat (List.length patients) |},
                    delay 300 net)
        | _ =>
            Return ({| allPatients := allPatients st; page := page st;
                       hasMore := false |}, net)
        end
  end.

(** The [catch] block. *)
Definition onFetchError (st : FetchState) (net : Net) : FetchState * Net :=
  let page' := page st + 1 in
  ({| allPatients := allPatients st; page := page';
      hasMore := if 15 <? page' then false else hasMore st |},
   delay 1000 net).

(** [try { body } catch (error) { handler }] *)
Definition try_catch {A : Type} (body : Completion A)
    (handler : Error -> Completion A) : Completion A :=
  match body with
  | Return a => Return a
  | Throw e => handler e
  end.

(** One iteration of the [while (hasMore)] loop. *)
Definition fetch_iteration (world : World) (st : FetchState) (net : Net)
    : option (Completion (FetchState * Net)) :=
  match makeRequest world (PatientsPage (page st)) 3 net with
  | None => None
  | Some (c, net1) =>
      Some (try_catch (afterFetch st c net1)
              (fun error => Return (onFetchError st net1)))
  end.

Fixpoint fetch_loop (fuel : nat) (world : World) (st : FetchState) (net : Net)
    : option (Completion (list JsValue) * Net) :=
  match fuel with
  | O => None
  | S fuel' =>
      if hasMore st then
        match fetch_iteration world st net with
        | None => None
        | Some (Return (st', net')) => fetch_loop fuel' world st' net'
        | Some (Throw e) => Some (Throw e, net)
        end
      else Some (Return (allPatients st), net)
  end.

(** [fetchAllPatients], run for at most [fuel] iterations of its loop;
    [None] when the loop has not finished by then. *)
Definition fetchAllPatients (fuel : nat) (world : World) (net : Net)
    : option (Completion (list JsValue) * Net) :=
  fetch_loop fuel world
    {| allPatients := []; page := 1; hasMore := true |} net.

(** [submitAssessment]: the rejection of [makeRequest] is rethrown. *)
Definition submitAssessment (world : World) (results : Assessment) (net : Net)
    : option (Completion JsValue * Net) :=
  match makeRequest world (SubmitAssessment results) 3 net with
  | None => None
  | Some (Return response, net') => Some (Return response, net')
  | Some (Throw error, net') => Some (Throw error, net')
  end.

(** ** index.js *)

Inductive ExitStatus : Type :=
| Completed            (* [main] ran to its end *)
| Exited (code : Z).   (* [process.exit(code)] *)

Definition main (fuel : nat) (world : World) (net : Net)
    : option (ExitStatus * Net) :=
  match fetchAllPatients fuel world net with
  | None => None
  | Some (Throw error, net1) => Some (Exited 1, net1)
  | Some (Return patients, net1) =>
      if (List.length patients =? 0)%nat then Some (Completed, net1)
      else
        let results := processPatients patients in
        match submitAssessment world results net1 with
        | None => None
        | Some (Return _, net2) => Some (Completed, net2)
        | Some (Throw error, net2) => Some (Exited 1, net2)
        end
  end.

(** * Definitions used in the statements *)

Definition integral (x : Number) : Prop :=
  match x with
  | NaN => False
  | Infinity _ => True
  | Finite q => exists k : Z, (q == inject_Z k)%Q
  end.

Definition in_band (lo hi : Z) (x : Number) : bool :=
  num_ge x (of_Z lo) && num_le x (of_Z hi).

(** The rule table as the specification gives it, highest priority first. *)
Definition bp_rules : list ((BP -> bool) * Z) :=
  [ (fun p => num_ge (systolic p) (of_Z 140) || num_ge (diastolic p) (of_Z 90), 3);
    (fun p => in_band 130 139 (systolic p) || in_band 80 89 (diastolic p), 2);
    (fun p => in_band 120 129 (systolic p) && num_lt (diastolic p) (of_Z 80), 1);
    (fun p => num_lt (systolic p) (of_Z 120) && num_lt (diastolic p) (of_Z 80), 0) ].

Fixpoint first_match {A : Type} (rules : list ((A -> bool) * Z)) (a : A)
    : option Z :=
  match rules with
  | [] => None
  | (applies, sc) :: rest => if applies a then Some sc else first_match rest a
  end.

(** The records that get past the guard at the top of the callback. *)
Definition processed (patient : JsValue) : bool :=
  truthy patient && truthy (get patient "patient_id").

Definition patient_id (patient : JsValue) : JsValue := get patient "patient_id".

(** The fever test on the raw field: it parses as a number, and that
    number is at least 99.6. *)
Definition raw_fever (patient : JsValue) : bool :=
  let temp := parseFloat (get patient "temperature") in
  negb (isNaN temp) && num_ge temp (lit 996 10).

Definition any_issue (patient : JsValue) : bool :=
  hasIssue (getBPRisk (get patient "blood_pressure"))
  || hasIssue (getTempRisk (get patient "temperature"))
  || hasIssue (getAgeRisk (get patient "age")).

Definition select (keep : JsValue -> bool) (patients : list JsValue)
    : list JsValue :=
  map patient_id (filter (fun p => processed p && keep p) patients).

Definition sample_record (id bp temp age : JsValue) : JsValue :=
  JObj [("patient_id", id); ("blood_pressure", bp);
        ("temperature", temp); ("age", age)].

Fixpoint digits_only (s : string) : bool :=
  match s with
  | EmptyString => true
  | String c s' => is_digit c && digits_only s'
  end.

Definition starts_without_digit (s : string) : Prop :=
  match s with
  | EmptyString => True
  | String c _ => is_digit c = false
  end.

(** The bands of [getTempRisk] on a parsed number. *)
Definition temp_band (t : Number) : Z :=
  if num_le t (lit 995 10) then 0
  else if num_ge t (lit 996 10) && num_le t (lit 1009 10) then 1
  else if num_ge t (lit 1010 10) then 2
  else 0.

Definition is_429 (o : Outcome) : bool := status_is o 429.

(** Number of 429 outcomes among the [m] outcomes from index [i] on. *)
Fixpoint count_429 (world : World) (i m : nat) : nat :=
  match m with
  | O => O
  | S m' => (if is_429 (world i) then 1 else 0) + count_429 world (S i) m'
  end.

(** Requests issued between two observations of the network. *)
Definition requests_made (net net' : Net) : nat :=
  List.length (requests net') - List.length (requests net).

(** Requests issued because the one before was answered 429: every 429
    outcome but a last one, which ends the call. *)
Definition rate_limit_attempts (world : World) (net net' : Net) : nat :=
  count_429 world (List.length (requests net)) (requests_made net net' - 1).

(** The other requests: the first one and the retries after any other
    failure. *)
Definition general_attempts (world : World) (net net' : Net) : nat :=
  requests_made net net' - rate_limit_attempts world net net'.

(** The two claims about [makeRequest] as they are worded, for
    comparison with the code. *)
Definition other_error (o : Outcome) : Prop :=
  match o with
  | Response _ => False
  | HttpError s => s <> 429 /\ s <> 500 /\ s <> 502 /\ s <> 503
  | NetworkError => True
  end.

Definition retries_every_other_error : Prop :=
  forall maxRetries st o, other_error o ->
    if maxRetries <=? attempt st
    then afterCall maxRetries st o = Finish (Throw (RequestError o))
    else exists ms,
        afterCall maxRetries st o =
          Retry {| attempt := attempt st + 1; rateLimitAttempts := 0 |} ms.

Definition at_most_eight_rate_limit_attempts : Prop :=
  forall world endpoint net c net',
    makeRequest world endpoint 3 net = Some (c, net') ->
    Z.of_nat (rate_limit_attempts world net net') <= maxRateLimitRetries.

(** Eight 429s, a 500, eight more 429s, then the payload. *)
Definition flaky_world (i : nat) : Outcome :=
  if (i =? 8)%nat then HttpError 500
  else if (i <? 17)%nat then HttpError 429
  else Response (JArr []).

Definition limited_then_errors (i : nat) : Outcome :=
  match i with
  | O => HttpError 429
  | _ => HttpError 500
  end.

Definition limited_then_ok (i : nat) : Outcome :=
  match i with
  | O => HttpError 429
  | _ => Response (JArr [JStr "ok"])
  end.

Definition fetch_init : FetchState :=
  {| allPatients := []; page := 1; hasMore := true |}.

(** The records a page fetch contributes: those of a payload in one of
    the three envelopes, nothing for a failure or any other payload. *)
Definition page_records (c : Completion JsValue) : list JsValue :=
  match c with
  | Return data =>
      if truthy data
      then match extractPatients data with Some l => l | None => [] end
      else []
  | Throw _ => []
  end.


(** [n] consecutive page numbers from [p]. *)
Fixpoint pages_from (p : Z) (n : nat) : list Z :=
  match n with
  | O => []
  | S n' => p :: pages_from (p + 1) n'
  end.

(** A payload after which the loop does not go on: fewer than five
    records, none, or no recognised envelope. *)
Definition last_page (data : JsValue) : bool :=
  truthy data &&
  match extractPatients data with
  | Some l => (List.length l <? 5)%nat
  | None => true
  end.

Definition five_records : list JsValue :=
  [ sample_record (JStr "a") (JStr "120/80") (JNum (lit 986 10)) (JNum (of_Z 30));
    sample_record (JStr "b") (JStr "121/80") (JNum (lit 986 10)) (JNum (of_Z 31));
    sample_record (JStr "c") (JStr "122/80") (JNum (lit 986 10)) (JNum (of_Z 32));
    sample_record (JStr "d") (JStr "123/80") (JNum (lit 986 10)) (JNum (of_Z 33));
    sample_record (JStr "e") (JStr "124/80") (JNum (lit 986 10)) (JNum (of_Z 34)) ].

Definition full_page : JsValue := JObj [("data", JArr five_records)].

(** A server that answers every request with a full page. *)
Definition endless_world : World := fun _ => Response full_page.

(** A server with sixteen full pages and nothing after them. *)
Definition sixteen_pages_world : World :=
  fun i => if (i <? 16)%nat then Response full_page
           else Response (JObj [("data", JArr [])]).

(** A server that answers every request with an empty body. *)
Definition empty_body_world : World := fun _ => Response (JStr "").

(** Page 1 full; page 2 fails twice with a 500, then is full; page 3
    has two records. *)
Definition three_pages_world : World :=
  fun i =>
    match i with
    | 0%nat | 3%nat => Response full_page
    | 1%nat | 2%nat => HttpError 500
    | _ => Response (JObj [("data", JArr (firstn 2 five_records))])
    end.

(** The stage a single reading falls in, as the table of [getBPRisk]
    grades it: systolic 140 and above is stage 3, 130 to 139 stage 2, 120
    to 129 stage 1; diastolic 90 and above is stage 3, 80 to 89 stage 2. *)
Definition systolic_stage (s : Number) : Z :=
  if num_ge s (of_Z 140) then 3
  else if num_ge s (of_Z 130) then 2
  else if num_ge s (of_Z 120) then 1
  else 0.

Definition diastolic_stage (d : Number) : Z :=
  if num_ge d (of_Z 90) then 3
  else if num_ge d (of_Z 80) then 2
  else 0.

Definition nonempty_digits (s : string) : Prop :=
  s <> EmptyString /\ digits_only s = true.

Definition is_server_error (o : Outcome) : bool :=
  status_is o 500 || status_is o 502 || status_is o 503.

(** The longest the loop of [makeRequest] can still spend in [delay]
    with three general attempts: the rest of the current run of 429s, then
    for each general attempt left a backoff and a full run of 429s. *)
Definition wait_budget (st : RetryState) : Z :=
  3000 * (36 - rateLimitAttempts st * (rateLimitAttempts st + 1) / 2)
  + (if attempt st =? 1 then 219000
     else if attempt st =? 2 then 110000 else 0).

(** Eight 429s and a 500, twice; then nine 429s. *)
Definition slowest_world (i : nat) : Outcome :=
  if ((i =? 8) || (i =? 17))%nat then HttpError 500 else HttpError 429.

(** Time spent waiting on [k] more 429s in a row after [r] of them. *)
Fixpoint backoff_429 (r : Z) (k : nat) : Z :=
  match k with
  | O => 0
  | S k' => 3000 * (r + 1) + backoff_429 (r + 1) k'
  end.

(** A payload that carries a full page: a recognised envelope with at
    least five records. *)
Definition full_payload (d : JsValue) : Prop :=
  truthy d = true /\
  exists l, extractPatients d = Some l /\ (5 <= List.length l)%nat.

Definition is_page_request (ep : Endpoint) : Prop :=
  exists p, ep = PatientsPage p.

Fixpoint spaces_only (s : string) : bool :=
  match s with
  | EmptyString => true
  | String c s' => is_space c && spaces_only s'
  end.

Fixpoint digits_or_spaces (s : string) : bool :=
  match s with
  | EmptyString => true
  | String c s' => (is_digit c || is_space c) && digits_or_spaces s'
  end.




(** * Properties *)

(** ** Integer-valued numbers

    [parseInt] yields [NaN], an infinity, or an integer (large integers
    are rounded to binary64, and stay integers). *)

Lemma rne_den_1 : forall n, rne n 1 = n.
Proof.
  intros n. unfold rne. rewrite Z.mod_1_r, Z.div_1_r. reflexivity.
Qed.

Lemma pow2_nonneg : forall k, 0 <= k -> pow2 k = inject_Z (2 ^ k).
Proof.
  intros k Hk. unfold pow2. destruct (0 <=? k) eqn:E; [reflexivity|].
  apply Z.leb_gt in E. lia.
Qed.

Lemma pow2_neg_cancel : forall n k, k < 0 ->
  (inject_Z (n * 2 ^ (- k)) * pow2 k == inject_Z n)%Q.
Proof.
  intros n k Hk. unfold pow2. destruct (0 <=? k) eqn:E.
  - apply Z.leb_le in E. lia.
  - assert (Hp : 0 < 2 ^ (- k)) by (apply Z.pow_pos_nonneg; lia).
    unfold Qeq, Qmult, inject_Z. cbn [Qnum Qden].
    rewrite Pos.mul_1_l, Z2Pos.id by exact Hp. lia.
Qed.

Lemma b64_pos_integral : forall z, 0 < z -> integral (b64_pos (inject_Z z)).
Proof.
  intros z Hz. unfold b64_pos.
  set (sh := ulp_exp (inject_Z z)).
  cbn [Qnum Qden inject_Z].
  match goal with |- integral (if ?c then _ else _) => destruct c end;
    [exact I|].
  cbn [integral]. destruct (0 <=? sh) eqn:E.
  - apply Z.leb_le in E. eexists. rewrite Qred_correct, pow2_nonneg by exact E.
    rewrite <- inject_Z_mult. reflexivity.
  - apply Z.leb_gt in E. exists z.
    rewrite Qred_correct, rne_den_1. apply pow2_neg_cancel. exact E.
Qed.

Lemma num_neg_integral : forall x, integral x -> integral (num_neg x).
Proof.
  intros [| s | q]; cbn; auto. intros [k Hk]. exists (- k).
  rewrite Hk, inject_Z_opp. reflexivity.
Qed.

Lemma of_Z_integral : forall z, integral (of_Z z).
Proof.
  intros z. unfold of_Z, b64. cbn [Qnum inject_Z]. destruct z as [| p | p].
  - exists 0. reflexivity.
  - apply b64_pos_integral. lia.
  - apply num_neg_integral.
    change (- inject_Z (Z.neg p))%Q with (inject_Z (Z.pos p)).
    apply b64_pos_integral. lia.
Qed.

Lemma parseInt10_string_integral : forall s,
  isNaN (parseInt10_string s) = false -> integral (parseInt10_string s).
Proof.
  intros s. unfold parseInt10_string.
  destruct (strip_sign (trimStart s)) as [neg body].
  destruct (span_digits body) as [z r].
  destruct (is_empty z); [discriminate|]. intros _.
  destruct neg; cbn [signed]; [apply num_neg_integral|]; apply of_Z_integral.
Qed.

(** Comparing an integer-valued number with a small integer constant. *)
Lemma Qle_bool_Z_r : forall q k c, (q == inject_Z k)%Q ->
  Qle_bool q (inject_Z c) = (k <=? c).
Proof.
  intros q k c H. apply eq_true_iff_eq.
  rewrite Qle_bool_iff, H, <- Zle_Qle, Z.leb_le. reflexivity.
Qed.

Lemma Qle_bool_Z_l : forall q k c, (q == inject_Z k)%Q ->
  Qle_bool (inject_Z c) q = (c <=? k).
Proof.
  intros q k c H. apply eq_true_iff_eq.
  rewrite Qle_bool_iff, H, <- Zle_Qle, Z.leb_le. reflexivity.
Qed.

Lemma cmp_integer : forall q k c, (q == inject_Z k)%Q ->
  num_lt (Finite q) (Finite (c # 1)) = (k <? c) /\
  num_le (Finite q) (Finite (c # 1)) = (k <=? c) /\
  num_gt (Finite q) (Finite (c # 1)) = (c <? k) /\
  num_ge (Finite q) (Finite (c # 1)) = (c <=? k).
Proof.
  intros q k c H. change (c # 1)%Q with (inject_Z c).
  unfold num_gt, num_ge, num_le, num_lt.
  rewrite (Qle_bool_Z_r q k c H), (Qle_bool_Z_l q k c H), !negb_involutive.
  rewrite !Z.ltb_antisym. auto.
Qed.

(** Replaces [of_Z c], for a literal [c], by the number it evaluates to. *)
Ltac eval_consts :=
  repeat match goal with
  | |- context [of_Z ?c] =>
      let r := eval vm_compute in (of_Z c) in
      change (of_Z c) with r
  end.

(** Case analysis on an integer-valued number: an infinity, or a
    rational equal to an integer [k], every comparison with an integer
    constant turned into the comparison on [Z]. *)
Ltac integral_cases x H :=
  let q := fresh "q" in let k := fresh "k" in let Hk := fresh "Hk" in
  destruct x as [| [|] | q]; cbn [integral] in H;
  [ contradiction | | | destruct H as [k Hk] ].

Ltac to_Z_cmp :=
  repeat match goal with
  | Hk : (?q == inject_Z ?k)%Q |- context [num_lt (Finite ?q) (Finite (?c # 1))] =>
      rewrite (proj1 (cmp_integer q k c Hk))
  | Hk : (?q == inject_Z ?k)%Q |- context [num_le (Finite ?q) (Finite (?c # 1))] =>
      rewrite (proj1 (proj2 (cmp_integer q k c Hk)))
  | Hk : (?q == inject_Z ?k)%Q |- context [num_gt (Finite ?q) (Finite (?c # 1))] =>
      rewrite (proj1 (proj2 (proj2 (cmp_integer q k c Hk))))
  | Hk : (?q == inject_Z ?k)%Q |- context [num_ge (Finite ?q) (Finite (?c # 1))] =>
      rewrite (proj2 (proj2 (proj2 (cmp_integer q k c Hk))))
  end.

Ltac bool_cases :=
  repeat match goal with
  | |- context [?a <=? ?b] => destruct (Z.leb_spec a b)
  | |- context [?a <? ?b] => destruct (Z.ltb_spec a b)
  end; cbn; try reflexivity; try lia; eauto.

(** ** C1: blood-pressure risk *)

Lemma parseBP_integral : forall bp p, parseBP bp = Some p ->
  integral (systolic p) /\ integral (diastolic p).
Proof.
  intros bp p. unfold parseBP. destruct bp; try discriminate.
  destruct (is_empty s); [discriminate|].
  destruct (matches_token _ _); [discriminate|].
  destruct (match_bp s) as [[g1 g2]|]; [|discriminate].
  destruct (isNaN (parseInt10_string g1)) eqn:E1; [discriminate|].
  destruct (isNaN (parseInt10_string g2)) eqn:E2; [discriminate|].
  cbn [orb]. intros H. injection H as <-. cbn [systolic diastolic].
  split; apply parseInt10_string_integral; assumption.
Qed.

(** C1. [getBPRisk] (the declaration in effect) returns score 0 with
    the issue flag when the input does not parse; otherwise one of the
    four rules applies, and the score is that of the first rule that does,
    in the order 3, 2, 1, 0. *)
Theorem getBPRisk_first_matching_rule : forall bp,
  match parseBP bp with
  | None => getBPRisk bp = {| score := 0; hasIssue := true |}
  | Some p =>
      first_match bp_rules p = Some (score (getBPRisk bp)) /\
      hasIssue (getBPRisk bp) = false
  end.
Proof.
  intros bp. unfold getBPRisk.
  destruct (parseBP bp) as [[s d]|] eqn:E; [|reflexivity].
  destruct (parseBP_integral _ _ E) as [Hs Hd]. cbn [systolic diastolic] in *.
  unfold bp_rules, first_match, in_band. cbn [systolic diastolic].
  eval_consts.
  integral_cases s Hs; integral_cases d Hd; to_Z_cmp;
    try (cbn; auto; fail); bool_cases.
Qed.

(** ** C8: age risk *)

Lemma num_le_integers : forall q1 k1 q2 k2,
  (q1 == inject_Z k1)%Q -> (q2 == inject_Z k2)%Q ->
  num_le (Finite q1) (Finite q2) = (k1 <=? k2).
Proof.
  intros q1 k1 q2 k2 H1 H2. unfold num_le, num_lt.
  rewrite negb_involutive. apply eq_true_iff_eq.
  rewrite Qle_bool_iff, H1, H2, <- Zle_Qle, Z.leb_le. reflexivity.
Qed.

(** A valid age is a positive integer (or infinite, for a digit string
    too long for binary64), scored by its band. *)
Lemma getAgeRisk_valid : forall age,
  hasIssue (getAgeRisk age) = false ->
  integral (parseInt10 age) /\
  num_le (parseInt10 age) (of_Z 0) = false /\
  score (getAgeRisk age) =
    if num_gt (parseInt10 age) (of_Z 65) then 2
    else if num_ge (parseInt10 age) (of_Z 40)
            && num_le (parseInt10 age) (of_Z 65) then 1
    else 0.
Proof.
  intros age. unfold getAgeRisk.
  destruct (truthy age && is_string age && _); [discriminate|].
  destruct (is_null age || is_undefined age || is_empty_string age);
    [discriminate|].
  destruct (isNaN (parseInt10 age)) eqn:EN; [discriminate|].
  destruct (num_le (parseInt10 age) (of_Z 0)) eqn:E0; [discriminate|].
  cbn [orb]. intros _.
  split; [apply parseInt10_string_integral; exact EN|].
  split; [reflexivity|].
  destruct (num_gt _ _); [reflexivity|].
  destruct (_ && _); [reflexivity|].
  destruct (num_lt _ _); reflexivity.
Qed.

(** C8. Over valid ages the score does not decrease as the parsed age
    grows, and the ages 39, 40, 65, 66 (as strings or as numbers) score
    0, 1, 1, 2. *)
Theorem getAgeRisk_monotone :
  (forall a1 a2,
      hasIssue (getAgeRisk a1) = false ->
      hasIssue (getAgeRisk a2) = false ->
      num_le (parseInt10 a1) (parseInt10 a2) = true ->
      score (getAgeRisk a1) <= score (getAgeRisk a2)) /\
  map getAgeRisk [JStr "39"; JStr "40"; JStr "65"; JStr "66"] =
    [ {| score := 0; hasIssue := false |}; {| score := 1; hasIssue := false |};
      {| score := 1; hasIssue := false |}; {| score := 2; hasIssue := false |} ] /\
  map getAgeRisk [JNum (of_Z 39); JNum (of_Z 40); JNum (of_Z 65); JNum (of_Z 66)] =
    [ {| score := 0; hasIssue := false |}; {| score := 1; hasIssue := false |};
      {| score := 1; hasIssue := false |}; {| score := 2; hasIssue := false |} ].
Proof.
  split; [|split; vm_compute; reflexivity].
  intros a1 a2 V1 V2 Hle.
  destruct (getAgeRisk_valid a1 V1) as (I1 & _ & ->).
  destruct (getAgeRisk_valid a2 V2) as (I2 & _ & ->).
  revert Hle. generalize dependent (parseInt10 a2).
  generalize dependent (parseInt10 a1). intros n1 I1 n2 I2.
  eval_consts.
  integral_cases n1 I1; integral_cases n2 I2; to_Z_cmp;
    try (cbn; intros; (lia || discriminate)).
  - intros _. bool_cases.
  - intros _. bool_cases.
  - rewrite (num_le_integers _ _ _ _ Hk Hk0). intros H%Z.leb_le. bool_cases.
Qed.

Lemma getAgeRisk_monotone_witness :
  score (getAgeRisk (JStr "39")) <= score (getAgeRisk (JNum (of_Z 70))).
Proof.
  apply (proj1 getAgeRisk_monotone); vm_compute; reflexivity.
Defined.

(** ** processPatients: C5, C6, C9 *)

Lemma processPatient_skip : forall acc p,
  processed p = false -> processPatient acc p = acc.
Proof.
  intros acc p H. unfold processPatient, processed in *.
  rewrite <- negb_andb, H. reflexivity.
Qed.

Lemma fold_processPatient : forall patients acc,
  fold_left processPatient patients acc =
  {| high_risk_patients :=
       high_risk_patients acc ++ select (fun p => 4 <=? totalScore p) patients;
     fever_patients := fever_patients acc ++ select raw_fever patients;
     data_quality_issues :=
       data_quality_issues acc ++ select any_issue patients |}%list.
Proof.
  induction patients as [| p rest IH]; intros acc.
  - cbn. rewrite !app_nil_r. destruct acc; reflexivity.
  - cbn [fold_left]. rewrite IH. unfold select. cbn [filter].
    destruct (processed p) eqn:Hp.
    + unfold processPatient. unfold processed in Hp.
      rewrite <- negb_andb, Hp. cbn [negb andb].
      fold (totalScore p). fold (raw_fever p). fold (any_issue p).
      fold (patient_id p).
      destruct (4 <=? totalScore p), (raw_fever p), (any_issue p);
        cbn [high_risk_patients fever_patients data_quality_issues map];
        rewrite <- ?app_assoc; reflexivity.
    + rewrite processPatient_skip by exact Hp. reflexivity.
Qed.

Lemma processPatients_lists : forall patients,
  processPatients patients =
  {| high_risk_patients := select (fun p => 4 <=? totalScore p) patients;
     fever_patients := select raw_fever patients;
     data_quality_issues := select any_issue patients |}.
Proof.
  intros patients. unfold processPatients. apply fold_processPatient.
Qed.

Lemma getBPRisk_score_range : forall bp, 0 <= score (getBPRisk bp) <= 3.
Proof.
  intros bp. unfold getBPRisk. destruct (parseBP bp) as [[s d]|]; [|cbn; lia].
  repeat match goal with
         | |- context [if ?c then _ else _] => destruct c
         end; cbn; lia.
Qed.

Lemma getTempRisk_score_range : forall t, 0 <= score (getTempRisk t) <= 2.
Proof.
  intros t. unfold getTempRisk.
  repeat match goal with
         | |- context [if ?c then _ else _] => destruct c
         end; cbn; lia.
Qed.

Lemma getAgeRisk_score_range : forall a, 0 <= score (getAgeRisk a) <= 2.
Proof.
  intros a. unfold getAgeRisk.
  repeat match goal with
         | |- context [if ?c then _ else _] => destruct c
         end; cbn; lia.
Qed.

(** C6. The total is the sum of the three component scores, it lies
    between 0 and 7, and the high-risk list holds, in input order, the
    ids of exactly the processed records whose total is at least 4. *)
Theorem totalScore_sum_range_high_risk : forall patients,
  (forall p,
      totalScore p = score (getBPRisk (get p "blood_pressure"))
                     + score (getTempRisk (get p "temperature"))
                     + score (getAgeRisk (get p "age")) /\
      0 <= totalScore p <= 7) /\
  high_risk_patients (processPatients patients) =
    map patient_id
      (filter (fun p => processed p && (4 <=? totalScore p)) patients).
Proof.
  intros patients. split.
  - intros p. split; [reflexivity|]. unfold totalScore.
    pose proof (getBPRisk_score_range (get p "blood_pressure")).
    pose proof (getTempRisk_score_range (get p "temperature")).
    pose proof (getAgeRisk_score_range (get p "age")). lia.
  - rewrite processPatients_lists. reflexivity.
Qed.

(** C5. The fever list holds, in input order, the ids of exactly the
    processed records whose raw temperature parses as a number that is at
    least 99.6; the result of [getTempRisk] plays no part. *)
Theorem fever_by_raw_temperature : forall patients,
  fever_patients (processPatients patients) =
    map patient_id
      (filter (fun p =>
                 processed p
                 && (negb (isNaN (parseFloat (get p "temperature")))
                     && num_ge (parseFloat (get p "temperature")) (lit 996 10)))
              patients).
Proof.
  intros patients. rewrite processPatients_lists. reflexivity.
Qed.

(** C9. A record that is falsy ([null], [undefined]) or whose
    [patient_id] is absent or falsy adds nothing to any list, and the
    result is the one obtained without it. *)
Theorem skipped_record_contributes_nothing : forall before p after,
  truthy p = false \/ truthy (get p "patient_id") = false ->
  processPatients (before ++ p :: after) = processPatients (before ++ after).
Proof.
  intros before p after H.
  assert (Hp : processed p = false).
  { unfold processed. destruct H as [-> | ->]; [reflexivity|].
    apply andb_false_r. }
  unfold processPatients. rewrite !fold_left_app. cbn [fold_left].
  rewrite processPatient_skip by exact Hp. reflexivity.
Qed.

Lemma skipped_record_contributes_nothing_witness :
  processPatients
    ([sample_record (JStr "p1") (JStr "145/95") (JStr "99.9") (JStr "70")]
     ++ sample_record (JStr "") (JStr "150/95") (JStr "102") (JStr "80")
     :: [sample_record (JStr "p3") (JStr "120/80") (JNum (lit 986 10))
           (JNum (of_Z 45))]) =
  processPatients
    ([sample_record (JStr "p1") (JStr "145/95") (JStr "99.9") (JStr "70")]
     ++ [sample_record (JStr "p3") (JStr "120/80") (JNum (lit 986 10))
           (JNum (of_Z 45))]).
Proof.
  apply skipped_record_contributes_nothing. right. reflexivity.
Defined.

(** ** C10: a number followed by other characters *)

Lemma span_digits_app : forall d r,
  digits_only d = true -> starts_without_digit r ->
  span_digits (d ++ r) = (d, r).
Proof.
  induction d as [| c d IH]; intros r Hd Hr.
  - destruct r as [| c r]; cbn in *; [reflexivity|]. rewrite Hr. reflexivity.
  - cbn in *. apply andb_prop in Hd as [Hc Hd].
    rewrite Hc, (IH r Hd Hr). reflexivity.
Qed.

Lemma b64_not_NaN : forall x, isNaN (b64 x) = false.
Proof.
  intros x. unfold b64.
  assert (H : forall y, isNaN (b64_pos y) = false /\
                        isNaN (num_neg (b64_pos y)) = false).
  { intros y. unfold b64_pos.
    match goal with |- context [if ?c then _ else _] => destruct c end;
      split; reflexivity. }
  destruct (Qnum x); [reflexivity | apply H | apply H].
Qed.

(** What a digit is not. *)
Lemma digit_facts : forall c, is_digit c = true ->
  is_space c = false /\ upper_char c = c /\
  (c =? "-")%char = false /\ (c =? "+")%char = false /\
  (c =? ".")%char = false /\ (c =? "I")%char = false /\
  (c =? "E")%char = false /\ (c =? "T")%char = false /\
  (c =? "N")%char = false /\ (c =? "U")%char = false.
Proof.
  intros [[|] [|] [|] [|] [|] [|] [|] [|]] H; vm_compute in H;
    try discriminate H; vm_compute; repeat split.
Qed.

Lemma exponent_part_none : forall c rest,
  c <> "e"%char -> c <> "E"%char -> exponent_part (String c rest) = 0.
Proof.
  intros c rest He HE. unfold exponent_part.
  destruct ((code c =? 101) || (code c =? 69)) eqn:E; [|reflexivity].
  exfalso. apply orb_prop in E as [E | E]; apply Z.eqb_eq in E;
    unfold code in E;
    [apply He | apply HE]; rewrite <- (ascii_N_embedding c);
    replace (N_of_ascii c) with (Z.to_N (Z.of_N (N_of_ascii c)))
      by apply N2Z.id; rewrite E; reflexivity.
Qed.

(** The scan of [ip], an optional fraction [frac] and a tail that
    starts with [c]. *)
Lemma scan_decimal_prefix : forall c0 ip fp frac c rest,
  is_digit c0 = true -> digits_only ip = true -> digits_only fp = true ->
  (frac = EmptyString /\ fp = EmptyString) \/ frac = String "." fp ->
  is_digit c = false -> c <> "."%char -> c <> "e"%char -> c <> "E"%char ->
  scan_decimal (String c0 ip ++ frac ++ String c rest) =
    Some (String c0 ip, fp, 0).
Proof.
  intros c0 ip fp frac c rest H0 Hip Hfp Hfrac Hc Hdot He HE.
  assert (Hd : digits_only (String c0 ip) = true) by (cbn; rewrite H0; exact Hip).
  unfold scan_decimal. destruct Hfrac as [[-> ->] | ->].
  - change (EmptyString ++ String c rest) with (String c rest).
    rewrite (span_digits_app _ (String c rest) Hd Hc).
    rewrite exponent_part_none by assumption.
    destruct (Ascii.eqb_spec c "."); [contradiction|].
    destruct c as [[|] [|] [|] [|] [|] [|] [|] [|]]; try reflexivity.
    contradiction.
  - change (String "." fp ++ String c rest)
      with (String "." (fp ++ String c rest)).
    rewrite (span_digits_app _ (String "." (fp ++ String c rest)) Hd eq_refl).
    rewrite (span_digits_app _ (String c rest) Hfp Hc).
    rewrite exponent_part_none by assumption. reflexivity.
Qed.

Lemma parseFloat_string_digit_start : forall c0 s,
  is_digit c0 = true ->
  parseFloat_string (String c0 s) =
    match scan_decimal (String c0 s) with
    | Some (ip, fp, e) => b64 (decimal_value ip fp e)
    | None => NaN
    end.
Proof.
  intros [[|] [|] [|] [|] [|] [|] [|] [|]] s H; vm_compute in H;
    try discriminate H; reflexivity.
Qed.

Lemma no_temp_token_digit_start : forall c0 s,
  is_digit c0 = true ->
  matches_token temp_invalid_tokens (toUpperCase (String c0 s)) = false.
Proof.
  intros [[|] [|] [|] [|] [|] [|] [|] [|]] s H; vm_compute in H;
    try discriminate H; reflexivity.
Qed.

(** C10. A temperature string made of digits, an optional fraction, and
    then characters that start with one that cannot continue a number is
    read by [parseFloat] as the number in front: [getTempRisk] scores that
    number in its bands without the issue flag, and the fever test is made
    on that number. In particular ["99.9F"] scores 1 and is a fever. *)
Theorem numeric_prefix_is_parsed : forall c0 ip fp frac c rest,
  is_digit c0 = true -> digits_only ip = true -> digits_only fp = true ->
  (frac = EmptyString /\ fp = EmptyString) \/ frac = String "." fp ->
  is_digit c = false -> c <> "."%char -> c <> "e"%char -> c <> "E"%char ->
  let temp := JStr (String c0 ip ++ frac ++ String c rest) in
  let value := b64 (decimal_value (String c0 ip) fp 0) in
  parseFloat temp = value /\
  parseFloat (JStr (String c0 ip ++ frac)) = value /\
  getTempRisk temp = {| score := temp_band value; hasIssue := false |} /\
  (forall p, get p "temperature" = temp ->
             raw_fever p = num_ge value (lit 996 10)) /\
  getTempRisk (JStr "99.9F") = {| score := 1; hasIssue := false |} /\
  fever_patients
    (processPatients
       [sample_record (JStr "p1") (JStr "120/80") (JStr "99.9F") (JStr "30")])
    = [JStr "p1"].
Proof.
  intros c0 ip fp frac c rest H0 Hip Hfp Hfrac Hc Hdot He HE temp value.
  assert (Hparse : parseFloat temp = value).
  { unfold temp, parseFloat. cbn [ToString].
    change (String c0 ip ++ frac ++ String c rest)
      with (String c0 (ip ++ frac ++ String c rest)).
    rewrite parseFloat_string_digit_start by exact H0.
    change (String c0 (ip ++ frac ++ String c rest))
      with (String c0 ip ++ frac ++ String c rest).
    rewrite (scan_decimal_prefix c0 ip fp frac c rest) by assumption.
    reflexivity. }
  split; [exact Hparse|]. split; [|split; [|split]].
  - unfold parseFloat. cbn [ToString].
    change (String c0 ip ++ frac) with (String c0 (ip ++ frac)).
    rewrite parseFloat_string_digit_start by exact H0.
    assert (Hd : digits_only (String c0 ip) = true)
      by (cbn; rewrite H0; exact Hip).
    unfold scan_decimal. destruct Hfrac as [[-> ->] | ->].
    + replace (String c0 (ip ++ "")) with (String c0 ip ++ "") by reflexivity.
      rewrite (span_digits_app _ EmptyString Hd I). reflexivity.
    + change (String c0 (ip ++ String "." fp))
        with (String c0 ip ++ String "." fp).
      rewrite (span_digits_app _ (String "." fp) Hd eq_refl).
      replace fp with (fp ++ "") at 1 by (clear; induction fp; cbn; congruence).
      rewrite (span_digits_app _ EmptyString Hfp I). reflexivity.
  - unfold getTempRisk. rewrite Hparse.
    unfold temp at 1 2 3. cbn [truthy is_string ToString].
    change (String c0 ip ++ frac ++ String c rest)
      with (String c0 (ip ++ frac ++ String c rest)).
    rewrite no_temp_token_digit_start by exact H0.
    rewrite andb_false_r.
    unfold temp. cbn [is_null is_undefined is_empty_string is_empty orb].
    unfold value at 1. rewrite b64_not_NaN. unfold temp_band.
    destruct (num_le value _); [reflexivity|].
    destruct (_ && _); [reflexivity|].
    destruct (num_ge value _); reflexivity.
  - intros p Hp. unfold raw_fever. rewrite Hp, Hparse.
    unfold value at 1. rewrite b64_not_NaN. reflexivity.
  - split; vm_compute; reflexivity.
Qed.

Lemma numeric_prefix_is_parsed_witness :
  parseFloat (JStr "101.5 F") = b64 (decimal_value "101" "5" 0).
Proof.
  apply (numeric_prefix_is_parsed "1"%char "01" "5" ".5" " "%char "F");
    try reflexivity; try discriminate.
  right. reflexivity.
Defined.

(** ** makeRequest: C2, C4 *)

Lemma afterCall_invariant : forall maxRetries st o st' ms,
  1 <= attempt st <= maxRetries ->
  0 <= rateLimitAttempts st <= maxRateLimitRetries ->
  afterCall maxRetries st o = Retry st' ms ->
  (is_429 o = true /\ attempt st' = attempt st /\
   rateLimitAttempts st' = rateLimitAttempts st + 1 /\
   rateLimitAttempts st' <= maxRateLimitRetries /\
   ms = 3000 * rateLimitAttempts st') \/
  (is_429 o = false /\ attempt st' = attempt st + 1 /\
   attempt st' <= maxRetries /\ rateLimitAttempts st' = 0 /\
   0 <= ms <= 1000 * attempt st).
Proof.
  intros maxRetries st o st' ms Ha Hr. unfold afterCall, is_429.
  set (d1 := 1000 * attempt st). set (d3 := 3000 * (rateLimitAttempts st + 1)).
  destruct o as [data | s |]; [discriminate | |].
  - destruct (status_is (HttpError s) 429) eqn:E429.
    + destruct (Z.leb_spec (rateLimitAttempts st + 1) maxRateLimitRetries);
        [|discriminate].
      intros Heq. injection Heq as <- <-. left. cbn [attempt rateLimitAttempts]. repeat split; lia || reflexivity.
    + destruct (_ || _).
      * destruct (Z.ltb_spec (attempt st) maxRetries); [|discriminate].
        intros Heq. injection Heq as <- <-. right. cbn [attempt rateLimitAttempts]. repeat split; lia || reflexivity.
      * destruct (Z.leb_spec maxRetries (attempt st)); [discriminate|].
        destruct (_ && _); [discriminate|].
        intros Heq. injection Heq as <- <-. right. cbn [attempt rateLimitAttempts]. repeat split; lia || reflexivity.
  - cbn [status_is status_of status_truthy andb orb negb].
    destruct (Z.leb_spec maxRetries (attempt st)); [discriminate|].
    intros Heq. injection Heq as <- <-. right. cbn [attempt rateLimitAttempts]. repeat split; lia || reflexivity.
Qed.

(** The loop ends within the iterations left by its two counters, only
    ever calls its own endpoint, and keeps both kinds of attempts within
    what the counters still allow. *)
Lemma makeRequest_loop_bounds : forall world endpoint maxRetries fuel st net,
  1 <= attempt st <= maxRetries ->
  0 <= rateLimitAttempts st <= maxRateLimitRetries ->
  9 * (maxRetries - attempt st) + (maxRateLimitRetries - rateLimitAttempts st)
    < Z.of_nat fuel ->
  exists c net' m,
    makeRequest_loop fuel world endpoint maxRetries st net = Some (c, net') /\
    requests net' = (requests net ++ repeat endpoint (S m))%list /\
    let r := count_429 world (List.length (requests net)) m in
    Z.of_nat r
      <= maxRateLimitRetries * (maxRetries - attempt st + 1)
         - rateLimitAttempts st /\
    Z.of_nat (S m) - Z.of_nat r <= maxRetries - attempt st + 1 /\
    waited net <= waited net'.
Proof.
  intros world endpoint maxRetries.
  induction fuel as [| fuel IH]; intros st net Ha Hr Hfuel.
  - unfold maxRateLimitRetries in *. lia.
  - cbn [makeRequest_loop].
    replace (attempt st <=? maxRetries) with true
      by (symmetry; apply Z.leb_le; apply Ha).
    cbn [orb].
    destruct (afterCall maxRetries st (world (List.length (requests net))))
      as [c | st' ms] eqn:E.
    + exists c, (send endpoint net), O.
      cbn [send requests waited count_429 repeat].
      unfold maxRateLimitRetries in *. repeat split; lia.
    + pose proof (afterCall_invariant _ _ _ _ _ Ha Hr E) as Hinv.
      assert (Hlen : List.length (requests (delay ms (send endpoint net)))
                     = S (List.length (requests net))).
      { cbn. rewrite length_app. cbn. lia. }
      unfold maxRateLimitRetries in *.
      destruct (IH st' (delay ms (send endpoint net)))
        as (c & net' & m & Hrun & Hreq & Hr' & Hg' & Hw); try lia.
      exists c, net', (S m). split; [exact Hrun|]. split.
      { rewrite Hreq. cbn [delay send requests].
        rewrite <- app_assoc. reflexivity. }
      rewrite Hlen in *. cbn [count_429]. cbn zeta in *.
      cbn [delay send waited] in Hw.
      destruct Hinv as [(-> & ? & ? & ? & ?) | (-> & ? & ? & ? & ?)];
        repeat split; lia.
Qed.

Lemma retry_fuel_enough : forall maxRetries,
  9 * (maxRetries - 1) + (maxRateLimitRetries - 0)
    < Z.of_nat (retry_fuel maxRetries).
Proof.
  intros maxRetries. unfold retry_fuel, maxRateLimitRetries.
  rewrite Z2Nat.id by lia. lia.
Qed.

(** [makeRequest] always completes, whatever the network answers. *)
Lemma makeRequest_bounds : forall world endpoint maxRetries net,
  exists c net' k,
    makeRequest world endpoint maxRetries net = Some (c, net') /\
    requests net' = (requests net ++ repeat endpoint k)%list /\
    Z.of_nat (general_attempts world net net') <= Z.max 0 maxRetries /\
    Z.of_nat (rate_limit_attempts world net net')
      <= maxRateLimitRetries * Z.max 0 maxRetries /\
    waited net <= waited net'.
Proof.
  intros world endpoint maxRetries net.
  destruct (Z.le_gt_cases 1 maxRetries) as [Hmax | Hmax].
  - destruct (makeRequest_loop_bounds world endpoint maxRetries
                (retry_fuel maxRetries)
                {| attempt := 1; rateLimitAttempts := 0 |} net)
      as (c & net' & m & Hrun & Hreq & Hr & Hg & Hw);
      cbn [attempt rateLimitAttempts];
      [lia | unfold maxRateLimitRetries; lia | apply retry_fuel_enough |].
    cbn [attempt rateLimitAttempts] in *.
    exists c, net', (S m). split; [exact Hrun|]. split; [exact Hreq|].
    unfold general_attempts, rate_limit_attempts, requests_made.
    rewrite Hreq, length_app, repeat_length.
    replace (List.length (requests net) + S m - List.length (requests net) - 1)%nat
      with m by lia.
    replace (List.length (requests net) + S m - List.length (requests net))%nat
      with (S m) by lia.
    unfold maxRateLimitRetries in *. repeat split; lia.
  - exists (Throw (failed_after maxRetries)), net, O.
    assert (Hrun : makeRequest world endpoint maxRetries net
                   = Some (Throw (failed_after maxRetries), net)).
    { unfold makeRequest, retry_fuel. rewrite Z.max_r by lia.
      change (Z.to_nat (9 * 1 + 2)) with 11%nat.
      cbn [makeRequest_loop attempt rateLimitAttempts].
      replace (1 <=? maxRetries) with false
        by (symmetry; apply Z.leb_gt; lia).
      reflexivity. }
    split; [exact Hrun|]. split; [cbn; rewrite app_nil_r; reflexivity|].
    unfold general_attempts, rate_limit_attempts, requests_made.
    rewrite Nat.sub_diag. cbn [Nat.sub count_429].
    unfold maxRateLimitRetries. repeat split; lia.
Qed.

(** C2, as worded, fails: status 404 on the first of three attempts is
    not retried. *)
Lemma other_status_fails_at_once : ~ retries_every_other_error.
Proof.
  intros H.
  specialize (H 3 {| attempt := 1; rateLimitAttempts := 0 |} (HttpError 404)).
  cbn in H. destruct H as [ms H]; [repeat split; discriminate|].
  discriminate H.
Qed.

(** C2, amended. An error with any other HTTP status ends the request
    at once, whatever [attempt] is; an error with no status ends it when
    [attempt >= maxRetries] and otherwise is retried with [attempt]
    incremented (and the rate-limit counter back at 0), the loop going
    round again. *)
Theorem other_errors_policy : forall maxRetries st,
  (forall s, s <> 0 -> s <> 429 -> s <> 500 -> s <> 502 -> s <> 503 ->
     afterCall maxRetries st (HttpError s)
       = Finish (Throw (RequestError (HttpError s)))) /\
  (maxRetries <= attempt st ->
     afterCall maxRetries st NetworkError
       = Finish (Throw (RequestError NetworkError))) /\
  (attempt st < maxRetries ->
     afterCall maxRetries st NetworkError
       = Retry {| attempt := attempt st + 1; rateLimitAttempts := 0 |} 0 /\
     forall fuel world endpoint net,
       world (List.length (requests net)) = NetworkError ->
       makeRequest_loop (S fuel) world endpoint maxRetries st net
       = makeRequest_loop fuel world endpoint maxRetries
           {| attempt := attempt st + 1; rateLimitAttempts := 0 |}
           (delay 0 (send endpoint net))).
Proof.
  intros maxRetries st. split; [|split].
  - intros s H0 H429 H500 H502 H503. unfold afterCall, status_is, status_truthy.
    cbn [status_of].
    apply Z.eqb_neq in H0, H429, H500, H502, H503.
    rewrite H0, H429, H500, H502, H503. cbn [orb andb negb].
    destruct (maxRetries <=? attempt st); reflexivity.
  - intros H. unfold afterCall. cbn [status_is status_of orb].
    replace (maxRetries <=? attempt st) with true
      by (symmetry; apply Z.leb_le; exact H).
    reflexivity.
  - intros H.
    assert (E : afterCall maxRetries st NetworkError
                = Retry {| attempt := attempt st + 1; rateLimitAttempts := 0 |} 0).
    { unfold afterCall. cbn [status_is status_of status_truthy orb andb].
      replace (maxRetries <=? attempt st) with false
        by (symmetry; apply Z.leb_gt; exact H).
      reflexivity. }
    split; [exact E|].
    intros fuel world endpoint net Hw. cbn [makeRequest_loop].
    replace (attempt st <=? maxRetries) with true
      by (symmetry; apply Z.leb_le; lia).
    cbn [orb]. rewrite Hw, E. reflexivity.
Qed.

Lemma other_errors_policy_witness :
  afterCall 3 {| attempt := 1; rateLimitAttempts := 0 |} (HttpError 404)
    = Finish (Throw (RequestError (HttpError 404))) /\
  afterCall 3 {| attempt := 3; rateLimitAttempts := 0 |} NetworkError
    = Finish (Throw (RequestError NetworkError)) /\
  afterCall 3 {| attempt := 1; rateLimitAttempts := 0 |} NetworkError
    = Retry {| attempt := 2; rateLimitAttempts := 0 |} 0.
Proof.
  split; [|split].
  - apply (proj1 (other_errors_policy 3 _)); discriminate.
  - apply (proj1 (proj2 (other_errors_policy 3 _))). cbn. lia.
  - apply (proj2 (proj2 (other_errors_policy 3
             {| attempt := 1; rateLimitAttempts := 0 |}))). cbn. lia.
Defined.

(** C4, as worded, fails: with the counter restarting at the 500, one
    call makes sixteen rate-limit attempts. *)
Lemma sixteen_rate_limit_attempts : ~ at_most_eight_rate_limit_attempts.
Proof.
  intros H.
  assert (E : exists c net',
             makeRequest flaky_world (PatientsPage 1) 3 net0 = Some (c, net') /\
             rate_limit_attempts flaky_world net0 net' = 16%nat).
  { eexists. eexists. split; [cbv; reflexivity | vm_compute; reflexivity]. }
  destruct E as (c & net' & Hrun & Hcount).
  specialize (H _ _ _ _ _ Hrun). rewrite Hcount in H.
  unfold maxRateLimitRetries in H. lia.
Qed.

Lemma retry_fuel_two : forall maxRetries, 1 <= maxRetries ->
  exists fuel, retry_fuel maxRetries = S (S fuel).
Proof.
  intros maxRetries H. unfold retry_fuel. rewrite Z.max_l by lia.
  exists (Z.to_nat (9 * maxRetries)).
  replace (9 * maxRetries + 2) with (Z.succ (Z.succ (9 * maxRetries))) by lia.
  rewrite !Z2Nat.inj_succ by lia. reflexivity.
Qed.

Lemma afterCall_server_error : forall maxRetries st o,
  is_server_error o = true ->
  afterCall maxRetries st o
  = if attempt st <? maxRetries
    then Retry {| attempt := attempt st + 1; rateLimitAttempts := 0 |}
               (1000 * attempt st)
    else Finish (Throw (RequestError o)).
Proof.
  intros maxRetries st o H. unfold is_server_error in H. unfold afterCall.
  destruct o as [data | s |]; try discriminate H.
  rewrite H.
  replace (status_is (HttpError s) 429) with false; [reflexivity|].
  unfold status_is in *. cbn [status_of] in *.
  repeat (apply orb_prop in H as [H | H]);
    apply Z.eqb_eq in H; subst s; reflexivity.
Qed.

Lemma retry_counts : forall world endpoint maxRetries net,
  exists c net',
    makeRequest world endpoint maxRetries net = Some (c, net') /\
    Z.of_nat (general_attempts world net net') <= Z.max 0 maxRetries /\
    Z.of_nat (rate_limit_attempts world net net')
      <= maxRateLimitRetries * Z.max 0 maxRetries /\
    (forall data,
        1 <= maxRetries ->
        world (List.length (requests net)) = HttpError 429 ->
        world (S (List.length (requests net))) = Response data ->
        c = Return data /\
        general_attempts world net net' = 1%nat /\
        rate_limit_attempts world net net' = 1%nat).
Proof.
  intros world endpoint maxRetries net.
  destruct (makeRequest_bounds world endpoint maxRetries net)
    as (c & net' & k & Hrun & Hreq & Hg & Hr & Hw).
  exists c, net'. split; [exact Hrun|]. split; [exact Hg|]. split; [exact Hr|].
  intros data Hmax H429 Hok.
  destruct (retry_fuel_two maxRetries Hmax) as [fuel Hfuel].
  unfold makeRequest in Hrun. rewrite Hfuel in Hrun.
  cbn [makeRequest_loop attempt rateLimitAttempts] in Hrun.
  replace (1 <=? maxRetries) with true in Hrun
    by (symmetry; apply Z.leb_le; exact Hmax).
  cbn [orb] in Hrun. rewrite H429 in Hrun.
  change (afterCall maxRetries {| attempt := 1; rateLimitAttempts := 0 |}
            (HttpError 429))
    with (Retry {| attempt := 1; rateLimitAttempts := 1 |} 3000) in Hrun.
  cbn [attempt rateLimitAttempts] in Hrun.
  replace (1 <=? maxRetries) with true in Hrun
    by (symmetry; apply Z.leb_le; exact Hmax).
  cbn [orb delay send requests] in Hrun.
  rewrite length_app, Nat.add_1_r, Hok in Hrun. cbn [afterCall] in Hrun.
  injection Hrun as <- <-. split; [reflexivity|].
  unfold general_attempts, rate_limit_attempts, requests_made.
  cbn [requests send delay]. rewrite !length_app. cbn [List.length].
  replace (List.length (requests net) + 1 + 1 - List.length (requests net) - 1)%nat
    with 1%nat by lia.
  replace (List.length (requests net) + 1 + 1 - List.length (requests net))%nat
    with 2%nat by lia.
  cbn [count_429]. unfold is_429. rewrite H429. split; reflexivity.
Qed.

Lemma is_429_server_error : forall o,
  is_server_error o = true -> is_429 o = false.
Proof.
  intros [data | s |] H; try discriminate H.
  unfold is_server_error, is_429, status_is in *. cbn [status_of] in *.
  repeat (apply orb_prop in H as [H | H]);
    apply Z.eqb_eq in H; subst s; reflexivity.
Qed.

Lemma afterCall_429 : forall maxRetries st,
  rateLimitAttempts st + 1 <= maxRateLimitRetries ->
  afterCall maxRetries st (HttpError 429)
  = Retry {| attempt := attempt st;
             rateLimitAttempts := rateLimitAttempts st + 1 |}
          (3000 * (rateLimitAttempts st + 1)).
Proof.
  intros maxRetries st H. unfold afterCall. cbn [status_is status_of].
  change (429 =? 429) with true. cbv iota.
  replace (rateLimitAttempts st + 1 <=? maxRateLimitRetries) with true
    by (symmetry; apply Z.leb_le; exact H).
  reflexivity.
Qed.

Lemma makeRequest_after_first_429 : forall world endpoint maxRetries net,
  1 <= maxRetries ->
  world (List.length (requests net)) = HttpError 429 ->
  makeRequest world endpoint maxRetries net
  = makeRequest_loop (Nat.pred (retry_fuel maxRetries)) world endpoint
      maxRetries {| attempt := 1; rateLimitAttempts := 1 |}
      (delay 3000 (send endpoint net)).
Proof.
  intros world endpoint maxRetries net Hmax H429.
  destruct (retry_fuel_two maxRetries Hmax) as [fuel Hfuel].
  unfold makeRequest. rewrite Hfuel. cbn [Nat.pred].
  change (makeRequest_loop (S (S fuel)) world endpoint maxRetries
            {| attempt := 1; rateLimitAttempts := 0 |} net)
    with (if (1 <=? maxRetries) || ((0 <? 0) && (0 <? maxRateLimitRetries))
          then
            match afterCall maxRetries {| attempt := 1; rateLimitAttempts := 0 |}
                    (world (List.length (requests net))) with
            | Finish c => Some (c, send endpoint net)
            | Retry st' ms =>
                makeRequest_loop (S fuel) world endpoint maxRetries st'
                  (delay ms (send endpoint net))
            end
          else Some (Throw (failed_after maxRetries), net)).
  replace (1 <=? maxRetries) with true by (symmetry; apply Z.leb_le; exact Hmax).
  cbn [orb]. rewrite H429, afterCall_429 by (cbn; unfold maxRateLimitRetries; lia).
  reflexivity.
Qed.

(** Three server errors met on the first general attempt use up the
    three attempts, whatever the rate-limit counter was. *)
Lemma server_errors_exhaust_loop : forall world endpoint fuel r net,
  (forall i, (i < 3)%nat ->
     is_server_error (world (List.length (requests net) + i)%nat) = true) ->
  makeRequest_loop (S (S (S fuel))) world endpoint 3
    {| attempt := 1; rateLimitAttempts := r |} net
  = Some (Throw (RequestError (world (List.length (requests net) + 2)%nat)),
          {| requests := (requests net ++ repeat endpoint 3)%list;
             waited := waited net + 3000 |}).
Proof.
  intros world endpoint fuel r net Hw.
  pose proof (Hw 0%nat ltac:(lia)) as H0. rewrite Nat.add_0_r in H0.
  pose proof (Hw 1%nat ltac:(lia)) as H1.
  pose proof (Hw 2%nat ltac:(lia)) as H2.
  cbn [makeRequest_loop attempt rateLimitAttempts].
  change (1 <=? 3) with true. cbn [orb].
  rewrite (afterCall_server_error 3 _ _ H0).
  cbn [attempt rateLimitAttempts]. change (1 <? 3) with true. cbv iota.
  change (1 + 1 <=? 3) with true. cbn [orb].
  replace (List.length (requests (delay (1000 * 1) (send endpoint net))))
    with (List.length (requests net) + 1)%nat
    by (cbn [delay send requests]; rewrite length_app; reflexivity).
  rewrite (afterCall_server_error 3 _ _ H1).
  cbn [attempt rateLimitAttempts]. change (1 + 1 <? 3) with true. cbv iota.
  change (1 + 1 + 1 <=? 3) with true. cbn [orb].
  replace (List.length
             (requests (delay (1000 * (1 + 1))
                          (send endpoint
                             (delay (1000 * 1) (send endpoint net))))))
    with (List.length (requests net) + 2)%nat
    by (cbn [delay send requests]; rewrite !length_app; cbn [List.length]; lia).
  rewrite (afterCall_server_error 3 _ _ H2).
  cbn [attempt rateLimitAttempts]. change (1 + 1 + 1 <? 3) with false. cbv iota.
  unfold delay, send. cbn [requests waited]. rewrite <- !app_assoc.
  change (1 + 1 <=? 3) with true. change (1 + 1 + 1 <=? 3) with true.
  cbn [orb]. do 3 f_equal. lia.
Qed.

(** C4, amended. One call of [makeRequest] always completes; it makes
    at most [maxRetries] general attempts (the first request and the
    retries after failures other than 429) and, since the rate-limit
    counter restarts at every such failure, at most
    [maxRateLimitRetries * maxRetries] rate-limit attempts. A 429 within
    the rate-limit budget leaves [attempt] as it was: after a first 429 the
    loop goes on with [attempt = 1]; a success then returns the payload,
    and three server errors then still get all three general attempts. *)
Theorem retry_budgets : forall world endpoint maxRetries net,
  (forall st,
      rateLimitAttempts st + 1 <= maxRateLimitRetries ->
      afterCall maxRetries st (HttpError 429)
      = Retry {| attempt := attempt st;
                 rateLimitAttempts := rateLimitAttempts st + 1 |}
              (3000 * (rateLimitAttempts st + 1))) /\
  (1 <= maxRetries ->
   world (List.length (requests net)) = HttpError 429 ->
   makeRequest world endpoint maxRetries net
   = makeRequest_loop (Nat.pred (retry_fuel maxRetries)) world endpoint
       maxRetries {| attempt := 1; rateLimitAttempts := 1 |}
       (delay 3000 (send endpoint net))) /\
  exists c net',
    makeRequest world endpoint maxRetries net = Some (c, net') /\
    Z.of_nat (general_attempts world net net') <= Z.max 0 maxRetries /\
    Z.of_nat (rate_limit_attempts world net net')
      <= maxRateLimitRetries * Z.max 0 maxRetries /\
    (forall data,
        1 <= maxRetries ->
        world (List.length (requests net)) = HttpError 429 ->
        world (S (List.length (requests net))) = Response data ->
        c = Return data /\
        net' = send endpoint (delay 3000 (send endpoint net)) /\
        general_attempts world net net' = 1%nat /\
        rate_limit_attempts world net net' = 1%nat) /\
    (maxRetries = 3 ->
     world (List.length (requests net)) = HttpError 429 ->
     (forall i, (i < 3)%nat ->
        is_server_error (world (S (List.length (requests net)) + i)%nat)
        = true) ->
     c = Throw (RequestError (world (S (List.length (requests net)) + 2)%nat))
     /\
     requests net' = (requests net ++ repeat endpoint 4)%list /\
     general_attempts world net net' = 3%nat /\
     rate_limit_attempts world net net' = 1%nat).
Proof.
  intros world endpoint maxRetries net.
  split; [intros st H; apply afterCall_429; exact H|].
  split; [apply makeRequest_after_first_429|].
  destruct (retry_counts world endpoint maxRetries net)
    as (c & net' & Hrun & Hg & Hr & Hok).
  exists c, net'. split; [exact Hrun|]. split; [exact Hg|]. split; [exact Hr|].
  split.
  - intros data Hmax H429 Hdata.
    destruct (Hok data Hmax H429 Hdata) as (Hc & Hga & Hra).
    split; [exact Hc|]. split; [|split; assumption].
    rewrite makeRequest_after_first_429 in Hrun by assumption.
    destruct (retry_fuel_two maxRetries Hmax) as [fuel Hfuel].
    rewrite Hfuel in Hrun. cbn [Nat.pred makeRequest_loop attempt] in Hrun.
    replace (1 <=? maxRetries) with true in Hrun
      by (symmetry; apply Z.leb_le; exact Hmax).
    cbn [orb] in Hrun.
    replace (List.length (requests (delay 3000 (send endpoint net))))
      with (S (List.length (requests net))) in Hrun
      by (cbn [delay send requests]; rewrite length_app; cbn; lia).
    rewrite Hdata in Hrun. cbn [afterCall] in Hrun.
    injection Hrun as _ <-. reflexivity.
  - intros -> H429 Herr.
    rewrite makeRequest_after_first_429 in Hrun by (lia || assumption).
    change (Nat.pred (retry_fuel 3)) with (S (S (S 25))) in Hrun.
    assert (Hlen : List.length (requests (delay 3000 (send endpoint net)))
                   = S (List.length (requests net)))
      by (cbn [delay send requests]; rewrite length_app; cbn; lia).
    rewrite server_errors_exhaust_loop in Hrun
      by (intros i Hi; rewrite Hlen; apply Herr; exact Hi).
    rewrite Hlen in Hrun. injection Hrun as <- <-.
    split; [reflexivity|].
    assert (Hreq : (requests (delay 3000 (send endpoint net))
                    ++ repeat endpoint 3
                    = requests net ++ repeat endpoint 4)%list)
      by (cbn [delay send requests repeat]; rewrite <- app_assoc; reflexivity).
    split; [exact Hreq|].
    unfold general_attempts, rate_limit_attempts, requests_made.
    cbn [requests]. rewrite !length_app. cbn [List.length].
    replace (List.length (requests net) + 1 + 3 - List.length (requests net) - 1)%nat
      with 3%nat by lia.
    replace (List.length (requests net) + 1 + 3 - List.length (requests net))%nat
      with 4%nat by lia.
    pose proof (is_429_server_error _ (Herr 0%nat ltac:(lia))) as E0.
    pose proof (is_429_server_error _ (Herr 1%nat ltac:(lia))) as E1.
    rewrite Nat.add_0_r in E0.
    replace (S (List.length (requests net)) + 1)%nat
      with (S (S (List.length (requests net)))) in E1 by lia.
    cbn [count_429]. rewrite E0, E1. unfold is_429. rewrite H429.
    split; reflexivity.
Qed.

(** A 429, then three times a 500. *)
Lemma retry_budgets_witness :
  (exists c net',
      makeRequest limited_then_ok (PatientsPage 1) 3 net0 = Some (c, net') /\
      c = Return (JArr [JStr "ok"]) /\
      net' = send (PatientsPage 1) (delay 3000 (send (PatientsPage 1) net0)) /\
      general_attempts limited_then_ok net0 net' = 1%nat /\
      rate_limit_attempts limited_then_ok net0 net' = 1%nat) /\
  (exists c net',
      makeRequest limited_then_errors (PatientsPage 1) 3 net0 = Some (c, net') /\
      c = Throw (RequestError (HttpError 500)) /\
      requests net' = repeat (PatientsPage 1) 4 /\
      general_attempts limited_then_errors net0 net' = 3%nat /\
      rate_limit_attempts limited_then_errors net0 net' = 1%nat) /\
  afterCall 3 {| attempt := 2; rateLimitAttempts := 7 |} (HttpError 429)
  = Retry {| attempt := 2; rateLimitAttempts := 8 |} 24000.
Proof.
  split; [|split].
  - destruct (proj2 (proj2 (retry_budgets limited_then_ok (PatientsPage 1) 3
                              net0)))
      as (c & net' & Hrun & _ & _ & H & _).
    exists c, net'. split; [exact Hrun|].
    apply (H (JArr [JStr "ok"])); [lia | reflexivity | reflexivity].
  - destruct (proj2 (proj2 (retry_budgets limited_then_errors (PatientsPage 1)
                              3 net0)))
      as (c & net' & Hrun & _ & _ & _ & H).
    exists c, net'. split; [exact Hrun|].
    apply H; [reflexivity | reflexivity |].
    intros [| [| [| i]]] Hi; [reflexivity.. | lia].
  - apply (proj1 (retry_budgets limited_then_ok (PatientsPage 1) 3 net0)
             {| attempt := 2; rateLimitAttempts := 7 |}).
    cbn. unfold maxRateLimitRetries. lia.
Defined.

(** ** fetchAllPatients: C3, C7 *)

(** What one iteration does to the loop state, by how the page fetch
    completed. *)
Lemma fetch_iteration_cases : forall world st net r,
  fetch_iteration world st net = Some r ->
  exists c net1 st' net',
    makeRequest world (PatientsPage (page st)) 3 net = Some (c, net1) /\
    r = Return (st', net') /\
    allPatients st' = (allPatients st ++ page_records c)%list /\
    (page st' = page st + 1 \/ hasMore st' = false) /\
    (hasMore st' = true ->
       (forall data, c = Return data -> last_page data = false) /\
       List.length (requests net') = List.length (requests net1)).
Proof.
  intros world st net r. unfold fetch_iteration.
  destruct (makeRequest world (PatientsPage (page st)) 3 net)
    as [[c net1]|] eqn:E; [|discriminate].
  intros H. injection H as <-. exists c, net1.
  destruct c as [data | e]; cbn [afterFetch try_catch page_records].
  - destruct (truthy data) eqn:Ht; cbn [negb andb].
    + destruct (extractPatients data) as [[| p rest]|] eqn:Hx.
      * do 2 eexists. split; [reflexivity|]. split; [reflexivity|].
        cbn. rewrite app_nil_r. repeat split; auto; discriminate.
      * do 2 eexists. split; [reflexivity|]. split; [reflexivity|].
        cbn [allPatients page hasMore]. split; [reflexivity|].
        split; [left; reflexivity|]. intros Hmore. split; [|reflexivity].
        intros d Hd. injection Hd as <-. unfold last_page.
        rewrite Ht, Hx. apply Z.leb_le in Hmore. apply Nat.ltb_ge. lia.
      * do 2 eexists. split; [reflexivity|]. split; [reflexivity|].
        cbn. rewrite app_nil_r. repeat split; auto; discriminate.
    + do 2 eexists. split; [reflexivity|]. split; [reflexivity|].
      cbn. rewrite app_nil_r. repeat split; auto.
      intros d Hd. injection Hd as <-. unfold last_page.
      rewrite Ht. reflexivity.
  - do 2 eexists. split; [reflexivity|]. split; [reflexivity|].
    cbn. rewrite app_nil_r. repeat split; auto. discriminate.
Qed.


Lemma fetch_loop_never_throws : forall world fuel st net e net',
  fetch_loop fuel world st net <> Some (Throw e, net').
Proof.
  intros world. induction fuel as [| fuel IH]; intros st net e net';
    cbn [fetch_loop]; [discriminate|].
  destruct (hasMore st); [|discriminate].
  destruct (fetch_iteration world st net) as [r|] eqn:E; [|discriminate].
  destruct (fetch_iteration_cases _ _ _ _ E)
    as (c & net1 & st' & net2 & _ & -> & _).
  apply IH.
Qed.




Lemma makeRequest_3_requests : forall world endpoint net,
  exists c net' m,
    makeRequest world endpoint 3 net = Some (c, net') /\
    requests net' = (requests net ++ repeat endpoint (S m))%list.
Proof.
  intros world endpoint net.
  destruct (makeRequest_loop_bounds world endpoint 3 (retry_fuel 3)
              {| attempt := 1; rateLimitAttempts := 0 |} net)
    as (c & net' & m & Hrun & Hreq & _);
    [cbn; lia | cbn; unfold maxRateLimitRetries; lia
     | apply retry_fuel_enough |].
  exists c, net', m. split; assumption.
Qed.


Lemma endless_world_goes_on : forall fuel st net,
  hasMore st = true -> fetch_loop fuel endless_world st net = None.
Proof.
  induction fuel as [| fuel IH]; intros st net H; [reflexivity|].
  cbn [fetch_loop]. rewrite H.
  change (fetch_iteration endless_world st net)
    with (Some (Return
            ({| allPatients := (allPatients st ++ five_records)%list;
                page := page st + 1; hasMore := true |},
             delay 300 (send (PatientsPage (page st)) net)))).
  apply IH. reflexivity.
Qed.

Lemma empty_body_world_goes_on : forall fuel st net,
  hasMore st = true -> fetch_loop fuel empty_body_world st net = None.
Proof.
  induction fuel as [| fuel IH]; intros st net H; [reflexivity|].
  cbn [fetch_loop]. rewrite H.
  change (fetch_iteration empty_body_world st net)
    with (Some (Return
            ({| allPatients := allPatients st; page := page st + 1;
                hasMore := hasMore st |},
             delay 1000 (send (PatientsPage (page st)) net)))).
  apply IH. exact H.
Qed.

(** C3. The page ceiling is tested only in the [catch] block. Against
    a server that always answers with a full page, or always with an empty
    body, the loop never ends; against one with sixteen full pages it
    requests pages 16 and 17. *)
Theorem pagination_ceiling_only_on_failure :
  (forall fuel, fetchAllPatients fuel endless_world net0 = None) /\
  (forall fuel, fetchAllPatients fuel empty_body_world net0 = None) /\
  (exists l net',
      fetchAllPatients 18 sixteen_pages_world net0 = Some (Return l, net') /\
      requests net' = map PatientsPage (pages_from 1 17)).
Proof.
  split; [|split].
  - intros fuel. apply endless_world_goes_on. reflexivity.
  - intros fuel. apply empty_body_world_goes_on. reflexivity.
  - eexists. eexists. split; [vm_compute; reflexivity | reflexivity].
Qed.





(** ** More on riskScoring.js *)

Lemma append_empty_r : forall s : string, s ++ "" = s.
Proof. induction s as [| c s IH]; cbn; congruence. Qed.

Lemma span_digits_spec : forall s d r,
  span_digits s = (d, r) ->
  s = d ++ r /\ digits_only d = true /\ starts_without_digit r.
Proof.
  induction s as [| c s IH]; intros d r; cbn [span_digits].
  - intros H. injection H as <- <-. repeat split.
  - destruct (is_digit c) eqn:E.
    + destruct (span_digits s) as [d' r'] eqn:Es.
      intros H. injection H as <- <-.
      destruct (IH d' r' eq_refl) as (-> & Hd & Hr).
      cbn. rewrite E. repeat split; assumption.
    + intros H. injection H as <- <-. cbn. repeat split. exact E.
Qed.

Lemma match_bp_spec : forall s g1 g2,
  match_bp s = Some (g1, g2) ->
  s = g1 ++ "/" ++ g2 /\ nonempty_digits g1 /\ nonempty_digits g2.
Proof.
  intros s g1 g2. unfold match_bp.
  destruct (span_digits s) as [d1 r1] eqn:E1.
  destruct (span_digits_spec _ _ _ E1) as (-> & Hd1 & _).
  destruct r1 as [| c r2]; [discriminate|].
  destruct (Ascii.eqb_spec c "/") as [-> | Hc];
    [| destruct c as [[|] [|] [|] [|] [|] [|] [|] [|]];
       try discriminate; contradiction].
  destruct (span_digits r2) as [d2 r3] eqn:E2.
  destruct (span_digits_spec _ _ _ E2) as (-> & Hd2 & _).
  destruct d1 as [| c1 d1]; [discriminate|].
  destruct d2 as [| c2 d2]; [discriminate|].
  destruct r3; [|discriminate]. cbn [is_empty negb andb].
  intros H. injection H as <- <-. rewrite append_empty_r.
  repeat split; try assumption; discriminate.
Qed.

Lemma strip_sign_digit : forall c s,
  is_digit c = true -> strip_sign (String c s) = (false, String c s).
Proof.
  intros [[|] [|] [|] [|] [|] [|] [|] [|]] s H; vm_compute in H;
    try discriminate H; reflexivity.
Qed.

Lemma parseInt10_string_digits : forall d,
  nonempty_digits d -> parseInt10_string d = of_Z (digits_value d).
Proof.
  intros [| c d] [Hne Hd]; [contradiction|].
  pose proof Hd as Hd'. cbn in Hd'. apply andb_prop in Hd' as [Hc _].
  unfold parseInt10_string. cbn [trimStart].
  rewrite (proj1 (digit_facts c Hc)), (strip_sign_digit c d Hc).
  rewrite <- (append_empty_r (String c d)) at 1.
  rewrite (span_digits_app _ EmptyString Hd I). reflexivity.
Qed.

Lemma no_bp_token_digit_start : forall c0 s,
  is_digit c0 = true ->
  matches_token bp_invalid_tokens (toUpperCase (String c0 s)) = false.
Proof.
  intros [[|] [|] [|] [|] [|] [|] [|] [|]] s H; vm_compute in H;
    try discriminate H; reflexivity.
Qed.

(** X1. [parseBP] accepts exactly the strings made of digits, a slash
    and digits, and reads the two numbers in base ten; everything else,
    strings or not, is rejected. *)
Theorem parseBP_accepts_digit_pairs : forall v,
  (forall p, parseBP v = Some p ->
     exists d1 d2,
       v = JStr (d1 ++ "/" ++ d2) /\ nonempty_digits d1 /\ nonempty_digits d2 /\
       p = {| systolic := of_Z (digits_value d1);
              diastolic := of_Z (digits_value d2) |}) /\
  (forall d1 d2,
     nonempty_digits d1 -> nonempty_digits d2 -> v = JStr (d1 ++ "/" ++ d2) ->
     parseBP v = Some {| systolic := of_Z (digits_value d1);
                         diastolic := of_Z (digits_value d2) |}).
Proof.
  intros v. split.
  - intros p. unfold parseBP. destruct v as [| | | | s | |]; try discriminate.
    destruct (is_empty s); [discriminate|].
    destruct (matches_token _ _); [discriminate|].
    destruct (match_bp s) as [[g1 g2]|] eqn:E; [|discriminate].
    destruct (match_bp_spec _ _ _ E) as (-> & H1 & H2).
    rewrite (parseInt10_string_digits _ H1), (parseInt10_string_digits _ H2).
    unfold of_Z. rewrite !b64_not_NaN. cbn [orb].
    intros H. injection H as <-. exists g1, g2.
    split; [reflexivity|]. split; [exact H1|]. split; [exact H2|reflexivity].
  - intros d1 d2 H1 H2 ->. unfold parseBP.
    destruct d1 as [| c1 d1]; [destruct H1; contradiction|].
    destruct H1 as [_ H1]. destruct H2 as [Hne2 H2].
    pose proof H1 as Hc1. cbn in Hc1. apply andb_prop in Hc1 as [Hc1 _].
    change (String c1 d1 ++ "/" ++ d2) with (String c1 (d1 ++ "/" ++ d2)).
    cbn [is_empty]. rewrite no_bp_token_digit_start by exact Hc1.
    change (String c1 (d1 ++ "/" ++ d2)) with (String c1 d1 ++ String "/" d2).
    unfold match_bp.
    rewrite (span_digits_app _ (String "/" d2) H1 eq_refl).
    rewrite <- (append_empty_r d2) at 1.
    rewrite (span_digits_app _ EmptyString H2 I).
    destruct d2 as [| c2 d2]; [contradiction|]. cbn [is_empty negb andb].
    rewrite !parseInt10_string_digits
      by (split; [discriminate | assumption]).
    unfold of_Z. rewrite !b64_not_NaN. reflexivity.
Qed.

Lemma parseBP_accepts_digit_pairs_witness :
  parseBP (JStr "120/80")
  = Some {| systolic := of_Z (digits_value "120");
            diastolic := of_Z (digits_value "80") |}.
Proof.
  apply (proj2 (parseBP_accepts_digit_pairs (JStr "120/80")) "120" "80");
    try reflexivity; split; (discriminate || reflexivity).
Defined.

(** X2. For a reading that parses, the score of [getBPRisk] is the
    higher of the stage of the systolic value and the stage of the
    diastolic value, as its header comment announces. *)
Theorem getBPRisk_higher_stage : forall bp p,
  parseBP bp = Some p ->
  getBPRisk bp =
    {| score := Z.max (systolic_stage (systolic p))
                      (diastolic_stage (diastolic p));
       hasIssue := false |}.
Proof.
  intros bp [s d] E. unfold getBPRisk. rewrite E.
  destruct (parseBP_integral _ _ E) as [Hs Hd]. cbn [systolic diastolic] in *.
  unfold systolic_stage, diastolic_stage. eval_consts.
  integral_cases s Hs; integral_cases d Hd; to_Z_cmp;
    try (cbn; auto; fail); bool_cases.
Qed.

Lemma getBPRisk_higher_stage_witness :
  getBPRisk (JStr "125/85") =
    {| score := Z.max (systolic_stage (of_Z 125)) (diastolic_stage (of_Z 85));
       hasIssue := false |}.
Proof.
  apply (getBPRisk_higher_stage (JStr "125/85")
           {| systolic := of_Z 125; diastolic := of_Z 85 |}).
  vm_compute. reflexivity.
Defined.

(** X3. The first declaration of [getBPRisk], which the later one
    replaces, grades the same bands one point higher, except for a reading
    with one value in stage 1 and the other in stage 2: it tests stage 1
    first and gives 3, where its own comment asks for the higher stage. *)
Theorem getBPRisk_first_against_effective : forall bp p,
  parseBP bp = Some p ->
  hasIssue (getBPRisk_first bp) = false /\
  score (getBPRisk_first bp) =
    if (in_band 130 139 (systolic p) || in_band 80 89 (diastolic p))
       && (num_ge (systolic p) (of_Z 140) || num_ge (diastolic p) (of_Z 90))
    then 3
    else score (getBPRisk bp) + 1.
Proof.
  intros bp [s d] E. unfold getBPRisk_first, getBPRisk. rewrite E.
  destruct (parseBP_integral _ _ E) as [Hs Hd]. cbn [systolic diastolic] in *.
  unfold in_band. eval_consts.
  integral_cases s Hs; integral_cases d Hd; to_Z_cmp;
    try (cbn; auto; fail); bool_cases.
Qed.

Lemma getBPRisk_first_against_effective_witness :
  hasIssue (getBPRisk_first (JStr "135/95")) = false /\
  score (getBPRisk_first (JStr "135/95")) = 3.
Proof.
  apply (getBPRisk_first_against_effective (JStr "135/95")
           {| systolic := of_Z 135; diastolic := of_Z 95 |}).
  vm_compute. reflexivity.
Defined.

(** X4. A component flagged with an issue always scores 0, for each of
    the three risk functions. *)
Theorem issue_scores_zero : forall v,
  (hasIssue (getBPRisk v) = true -> score (getBPRisk v) = 0) /\
  (hasIssue (getTempRisk v) = true -> score (getTempRisk v) = 0) /\
  (hasIssue (getAgeRisk v) = true -> score (getAgeRisk v) = 0).
Proof.
  intros v. unfold getBPRisk, getTempRisk, getAgeRisk. repeat split.
  - destruct (parseBP v) as [[s d]|]; [|reflexivity].
    repeat match goal with
           | |- context [if ?c then _ else _] => destruct c
           end; cbn; discriminate.
  - repeat match goal with
           | |- context [if ?c then _ else _] => destruct c
           end; cbn; (reflexivity || discriminate).
  - repeat match goal with
           | |- context [if ?c then _ else _] => destruct c
           end; cbn; (reflexivity || discriminate).
Qed.

Lemma issue_scores_zero_witness :
  score (getBPRisk (JStr "150/")) = 0 /\
  score (getTempRisk (JStr "TEMP_ERROR")) = 0 /\
  score (getAgeRisk (JStr "unknown")) = 0.
Proof.
  split; [|split].
  - apply (proj1 (issue_scores_zero (JStr "150/"))). reflexivity.
  - apply (proj1 (proj2 (issue_scores_zero (JStr "TEMP_ERROR")))). reflexivity.
  - apply (proj2 (proj2 (issue_scores_zero (JStr "unknown")))). reflexivity.
Defined.

(** *** Temperature *)

Lemma upper_char_cases : forall c,
  upper_char c = c \/ c = ascii_of_N (N_of_ascii (upper_char c) + 32).
Proof.
  intros [[|] [|] [|] [|] [|] [|] [|] [|]];
    (left; reflexivity) || (right; reflexivity).
Qed.

Lemma parseFloat_string_letter_start : forall c s,
  existsb (Ascii.eqb (upper_char c)) ["E"; "T"; "N"; "U"]%char = true ->
  parseFloat_string (String c s) = NaN.
Proof.
  intros [[|] [|] [|] [|] [|] [|] [|] [|]] s H; vm_compute in H;
    try discriminate H; reflexivity.
Qed.

Lemma parseFloat_string_INV : forall c1 c2 c3 s,
  upper_char c1 = "I"%char -> upper_char c2 = "N"%char ->
  upper_char c3 = "V"%char ->
  parseFloat_string (String c1 (String c2 (String c3 s))) = NaN.
Proof.
  intros c1 c2 c3 s H1 H2 H3.
  destruct (upper_char_cases c1) as [E1 | E1]; rewrite H1 in E1;
    destruct (upper_char_cases c2) as [E2 | E2]; rewrite H2 in E2;
    destruct (upper_char_cases c3) as [E3 | E3]; rewrite H3 in E3;
    subst c1 c2 c3; reflexivity.
Qed.

(** A string that is one of the invalid tokens of [getTempRisk], in any
    letter case, is not a number for [parseFloat] either. *)
Lemma temp_token_not_a_number : forall s,
  matches_token temp_invalid_tokens (toUpperCase s) = true ->
  parseFloat_string s = NaN.
Proof.
  intros s H. unfold matches_token, temp_invalid_tokens in H.
  cbn [existsb] in H.
  repeat (apply orb_prop in H as [H | H]); try discriminate H;
    apply String.eqb_eq in H;
    destruct s as [| c1 s]; try discriminate H;
    cbn [toUpperCase] in H; injection H as H1 Hs;
    try (apply parseFloat_string_letter_start; rewrite H1; reflexivity).
  destruct s as [| c2 [| c3 s]]; try discriminate Hs.
  cbn [toUpperCase] in Hs. injection Hs as H2 H3 _.
  apply parseFloat_string_INV; assumption.
Qed.

Lemma getTempRisk_cases : forall temp,
  getTempRisk temp =
    if isNaN (parseFloat temp) then {| score := 0; hasIssue := true |}
    else {| score := temp_band (parseFloat temp); hasIssue := false |}.
Proof.
  intros temp. unfold getTempRisk.
  destruct (truthy temp && is_string temp
            && matches_token temp_invalid_tokens (toUpperCase (ToString temp)))
    eqn:Etok.
  - apply andb_prop in Etok as [_ Etok].
    unfold parseFloat. rewrite (temp_token_not_a_number _ Etok). reflexivity.
  - destruct (isNaN (parseFloat temp)) eqn:EN.
    + rewrite !orb_true_r. reflexivity.
    + rewrite orb_false_r.
      assert (E : is_null temp || is_undefined temp || is_empty_string temp
                  = false).
      { destruct temp as [| | b | n | [| c s] | l | ps]; try reflexivity;
          vm_compute in EN; discriminate EN. }
      rewrite E. unfold temp_band. cbn [orb].
      destruct (num_le (parseFloat temp) (lit 995 10)); [reflexivity|].
      destruct (num_ge (parseFloat temp) (lit 996 10)
                && num_le (parseFloat temp) (lit 1009 10)); [reflexivity|].
      destruct (num_ge (parseFloat temp) (lit 1010 10)); reflexivity.
Qed.

(** X5. [getTempRisk] is decided by [parseFloat] alone: the issue flag
    is raised exactly when the value does not parse as a number (the token
    list and the tests for [null], [undefined] and the empty string never
    reject a value that parses), and otherwise the number is graded in the
    bands. *)
Theorem getTempRisk_by_parseFloat : forall temp,
  getTempRisk temp =
    if isNaN (parseFloat temp) then {| score := 0; hasIssue := true |}
    else {| score := temp_band (parseFloat temp); hasIssue := false |}.
Proof. exact getTempRisk_cases. Qed.

Lemma num_lt_Finite : forall a b,
  num_lt (Finite a) (Finite b) = true <-> (a < b)%Q.
Proof.
  intros a b. unfold num_lt. rewrite negb_true_iff.
  rewrite <- not_true_iff_false, Qle_bool_iff. split.
  - apply Qnot_le_lt.
  - apply Qlt_not_le.
Qed.

Lemma num_le_Finite : forall a b,
  num_le (Finite a) (Finite b) = true <-> (a <= b)%Q.
Proof.
  intros a b. unfold num_le, num_lt. rewrite negb_involutive.
  apply Qle_bool_iff.
Qed.

(** Turns the comparisons of the context and of the goal, between a
    finite number and literals, into rational arithmetic. *)
Ltac eval_lits_in H :=
  repeat match type of H with
  | context [lit ?n ?d] =>
      let r := eval vm_compute in (lit n d) in
      change (lit n d) with r in H
  end.

Ltac eval_lits :=
  repeat match goal with
  | |- context [lit ?n ?d] =>
      let r := eval vm_compute in (lit n d) in
      change (lit n d) with r
  end.

(** X6. The first threshold of the bands and the fever threshold are
    the same number: a processed record whose temperature scores 1 or 2 is
    a fever. *)
Theorem scored_temperature_is_fever : forall p,
  1 <= score (getTempRisk (get p "temperature")) -> raw_fever p = true.
Proof.
  intros p. rewrite getTempRisk_cases. unfold raw_fever.
  destruct (isNaN (parseFloat (get p "temperature"))) eqn:EN;
    cbn [score negb andb]; [lia|].
  unfold temp_band. generalize dependent (parseFloat (get p "temperature")).
  intros v EN.
  destruct (num_le v (lit 995 10)); [lia|].
  destruct (num_ge v (lit 996 10)) eqn:E1; [reflexivity|]. cbn [andb].
  destruct (num_ge v (lit 1010 10)) eqn:E2; [|lia]. intros _.
  revert E1 E2. unfold num_ge. eval_lits.
  destruct v as [| [|] | q]; try discriminate.
  intros E1 E2%num_le_Finite.
  apply not_true_iff_false in E1. exfalso. apply E1.
  apply num_le_Finite. lra.
Qed.

Lemma scored_temperature_is_fever_witness :
  raw_fever (sample_record (JStr "p") (JStr "120/80") (JNum (lit 1015 10))
               (JNum (of_Z 50))) = true.
Proof.
  apply scored_temperature_is_fever. vm_compute. discriminate.
Defined.

(** Every comparison between finite numbers in the context, as a
    statement about rationals. *)
Ltac to_Q_cmp :=
  repeat match goal with
  | H : num_le (Finite _) (Finite _) = true |- _ => apply num_le_Finite in H
  | H : num_lt (Finite _) (Finite _) = true |- _ => apply num_lt_Finite in H
  | H : num_le (Finite _) (Finite _) = false |- _ =>
      apply not_true_iff_false in H; rewrite num_le_Finite in H
  | H : num_lt (Finite _) (Finite _) = false |- _ =>
      apply not_true_iff_false in H; rewrite num_lt_Finite in H
  end.

(** X7. The bands leave a gap: a temperature above 100.9 and below
    101.0 (such as 100.95) scores 0 without an issue, although it counts
    as a fever. *)
Theorem temperature_gap_scores_zero : forall temp,
  num_gt (parseFloat temp) (lit 1009 10) = true ->
  num_lt (parseFloat temp) (lit 1010 10) = true ->
  getTempRisk temp = {| score := 0; hasIssue := false |} /\
  forall p, get p "temperature" = temp -> raw_fever p = true.
Proof.
  intros temp Hgt Hlt. rewrite getTempRisk_cases.
  assert (Hfever : forall p, get p "temperature" = temp -> raw_fever p = true);
    [intros p Hp; unfold raw_fever; rewrite Hp
    | split; [|exact Hfever]; clear Hfever];
    unfold temp_band; revert Hgt Hlt; generalize (parseFloat temp);
    intros v; unfold num_gt, num_ge; eval_lits;
    destruct v as [| [|] | q]; try discriminate; intros Hgt Hlt;
    cbn [isNaN negb andb];
    repeat match goal with
           | |- context [num_le ?a ?b] =>
               let E := fresh "E" in destruct (num_le a b) eqn:E
           end;
    cbn [andb]; try reflexivity; exfalso; to_Q_cmp; lra.
Qed.

Lemma temperature_gap_scores_zero_witness :
  getTempRisk (JStr "100.95") = {| score := 0; hasIssue := false |}.
Proof.
  apply (temperature_gap_scores_zero (JStr "100.95")); vm_compute; reflexivity.
Defined.

(** *** The three lists together *)

(** X8. The data-quality list holds, in input order, the ids of exactly
    the processed records with an issue in blood pressure, temperature or
    age. *)
Theorem data_quality_issues_by_component : forall patients,
  data_quality_issues (processPatients patients) =
    map patient_id
      (filter (fun p =>
                 processed p
                 && (hasIssue (getBPRisk (get p "blood_pressure"))
                     || hasIssue (getTempRisk (get p "temperature"))
                     || hasIssue (getAgeRisk (get p "age"))))
              patients).
Proof.
  intros patients. rewrite processPatients_lists. reflexivity.
Qed.

(** X9. Processing a concatenation gives, list by list, the results of
    the parts one after the other: records are assessed independently and
    in order, and nothing is merged or deduplicated. *)
Theorem processPatients_app : forall first second,
  processPatients (first ++ second) =
    {| high_risk_patients :=
         high_risk_patients (processPatients first)
         ++ high_risk_patients (processPatients second);
       fever_patients :=
         fever_patients (processPatients first)
         ++ fever_patients (processPatients second);
       data_quality_issues :=
         data_quality_issues (processPatients first)
         ++ data_quality_issues (processPatients second) |}%list.
Proof.
  intros first second. rewrite !processPatients_lists.
  cbn [high_risk_patients fever_patients data_quality_issues].
  unfold select. rewrite !filter_app, !map_app. reflexivity.
Qed.

(** X10. Every id in an output list is the [patient_id] of an input
    record, and no list is longer than the input. *)
Theorem outputs_come_from_input : forall patients id,
  (In id (high_risk_patients (processPatients patients))
   \/ In id (fever_patients (processPatients patients))
   \/ In id (data_quality_issues (processPatients patients)) ->
   exists p, In p patients /\ truthy p = true /\ get p "patient_id" = id
             /\ truthy id = true) /\
  (List.length (high_risk_patients (processPatients patients))
     <= List.length patients)%nat /\
  (List.length (fever_patients (processPatients patients))
     <= List.length patients)%nat /\
  (List.length (data_quality_issues (processPatients patients))
     <= List.length patients)%nat.
Proof.
  intros patients id. rewrite processPatients_lists.
  cbn [high_risk_patients fever_patients data_quality_issues]. unfold select.
  split.
  - intros H.
    assert (Hin : exists keep,
               In id (map patient_id
                        (filter (fun p => processed p && keep p) patients))).
    { destruct H as [H | [H | H]];
        [exists (fun p => 4 <=? totalScore p) | exists raw_fever
         | exists any_issue]; exact H. }
    destruct Hin as [keep Hin].
    apply in_map_iff in Hin as (p & <- & Hp).
    apply filter_In in Hp as [Hp Hk].
    apply andb_prop in Hk as [Hk _]. unfold processed in Hk.
    apply andb_prop in Hk as [H1 H2].
    exists p. repeat split; assumption.
  - rewrite !length_map. repeat split; apply filter_length_le.
Qed.

Lemma outputs_come_from_input_witness :
  exists p,
    In p [sample_record (JStr "p1") (JStr "145/95") (JStr "99.9") (JStr "70")]
    /\ truthy p = true /\ get p "patient_id" = JStr "p1"
    /\ truthy (JStr "p1") = true.
Proof.
  apply (proj1 (outputs_come_from_input
                  [sample_record (JStr "p1") (JStr "145/95") (JStr "99.9")
                     (JStr "70")] (JStr "p1"))).
  left. vm_compute. left. reflexivity.
Defined.

(** ** More on makeRequest *)

Lemma makeRequest_count_bounds : forall world endpoint maxRetries net,
  1 <= maxRetries ->
  exists c net' k,
    makeRequest world endpoint maxRetries net = Some (c, net') /\
    requests net' = (requests net ++ repeat endpoint k)%list /\
    1 <= Z.of_nat k <= 9 * maxRetries /\
    waited net <= waited net'.
Proof.
  intros world endpoint maxRetries net Hmax.
  destruct (makeRequest_loop_bounds world endpoint maxRetries
              (retry_fuel maxRetries)
              {| attempt := 1; rateLimitAttempts := 0 |} net)
    as (c & net' & m & Hrun & Hreq & Hr & Hg & Hw);
    cbn [attempt rateLimitAttempts];
    [lia | unfold maxRateLimitRetries; lia | apply retry_fuel_enough |].
  cbn [attempt rateLimitAttempts] in *. unfold maxRateLimitRetries in *.
  exists c, net', (S m). repeat split; try assumption; lia.
Qed.

(** X11. With at least one attempt allowed, one call issues between 1
    and [9 * maxRetries] HTTP requests, all to its own endpoint, and never
    gives back time. *)
Theorem makeRequest_request_count : forall world endpoint maxRetries net,
  1 <= maxRetries ->
  exists c net' k,
    makeRequest world endpoint maxRetries net = Some (c, net') /\
    requests net' = (requests net ++ repeat endpoint k)%list /\
    1 <= Z.of_nat k <= 9 * maxRetries /\
    waited net <= waited net'.
Proof. exact makeRequest_count_bounds. Qed.

Lemma makeRequest_request_count_witness :
  exists c net' k,
    makeRequest flaky_world (PatientsPage 1) 3 net0 = Some (c, net') /\
    requests net' = (requests net0 ++ repeat (PatientsPage 1) k)%list /\
    1 <= Z.of_nat k <= 9 * 3 /\
    waited net0 <= waited net'.
Proof.
  apply (makeRequest_request_count flaky_world (PatientsPage 1) 3 net0). lia.
Defined.

Lemma makeRequest_no_budget : forall world endpoint maxRetries net,
  maxRetries <= 0 ->
  makeRequest world endpoint maxRetries net
  = Some (Throw (failed_after maxRetries), net).
Proof.
  intros world endpoint maxRetries net H.
  unfold makeRequest, retry_fuel. rewrite Z.max_r by lia.
  change (Z.to_nat (9 * 1 + 2)) with 11%nat.
  cbn [makeRequest_loop attempt rateLimitAttempts].
  replace (1 <=? maxRetries) with false by (symmetry; apply Z.leb_gt; lia).
  reflexivity.
Qed.

(** X12. With no attempt allowed ([maxRetries <= 0]) no request is
    sent: the call fails at once with "Request failed after N attempts". *)
Theorem makeRequest_without_budget : forall world endpoint maxRetries net,
  maxRetries <= 0 ->
  makeRequest world endpoint maxRetries net
  = Some (Throw (failed_after maxRetries), net).
Proof. exact makeRequest_no_budget. Qed.

Lemma makeRequest_without_budget_witness :
  makeRequest endless_world (PatientsPage 1) 0 net0
  = Some (Throw (PlainError "Request failed after 0 attempts"), net0).
Proof.
  apply (makeRequest_without_budget endless_world (PatientsPage 1) 0 net0). lia.
Defined.

Lemma makeRequest_loop_last_outcome :
  forall world endpoint maxRetries fuel st net c net',
    makeRequest_loop fuel world endpoint maxRetries st net = Some (c, net') ->
    match c with
    | Return data =>
        exists i, List.length (requests net') = S i /\
                  (List.length (requests net) <= i)%nat /\
                  world i = Response data
    | Throw (RequestError o) =>
        exists i, List.length (requests net') = S i /\
                  (List.length (requests net) <= i)%nat /\
                  world i = o /\ forall data, o <> Response data
    | Throw (PlainError _) => True
    end.
Proof.
  intros world endpoint maxRetries.
  induction fuel as [| fuel IH]; intros st net c net';
    cbn [makeRequest_loop]; [discriminate|].
  destruct (_ || _).
  - destruct (afterCall maxRetries st (world (List.length (requests net))))
      as [c1 | st' ms] eqn:E.
    + intros H. injection H as <- <-.
      assert (Hlen : List.length (requests (send endpoint net))
                     = S (List.length (requests net))).
      { cbn. rewrite length_app. cbn. lia. }
      unfold afterCall in E.
      destruct (world (List.length (requests net))) as [data | s |] eqn:Ew.
      * injection E as <-. exists (List.length (requests net)).
        repeat split; [exact Hlen | lia | exact Ew].
      * repeat match type of E with
               | context [if ?b then _ else _] => destruct b
               end; try discriminate E; injection E as <-;
          exists (List.length (requests net));
          (repeat split; [exact Hlen | lia | exact Ew | discriminate]).
      * repeat match type of E with
               | context [if ?b then _ else _] => destruct b
               end; try discriminate E; injection E as <-;
          exists (List.length (requests net));
          (repeat split; [exact Hlen | lia | exact Ew | discriminate]).
    + intros H. apply IH in H.
      assert (Hlen : List.length (requests (delay ms (send endpoint net)))
                     = S (List.length (requests net))).
      { cbn. rewrite length_app. cbn. lia. }
      destruct c as [data | [o | msg]].
      * destruct H as (i & H1 & H2 & H3). exists i.
        split; [exact H1|]. split; [lia | exact H3].
      * destruct H as (i & H1 & H2 & H3 & H4). exists i.
        split; [exact H1|]. split; [lia|]. split; [exact H3 | exact H4].
      * exact I.
  - intros H. injection H as <- <-. exact I.
Qed.

Lemma makeRequest_loop_no_plain_error :
  forall world endpoint maxRetries fuel st net c net',
    1 <= attempt st <= maxRetries ->
    0 <= rateLimitAttempts st <= maxRateLimitRetries ->
    makeRequest_loop fuel world endpoint maxRetries st net = Some (c, net') ->
    forall msg, c <> Throw (PlainError msg).
Proof.
  intros world endpoint maxRetries.
  induction fuel as [| fuel IH]; intros st net c net' Ha Hr;
    cbn [makeRequest_loop]; [discriminate|].
  replace (attempt st <=? maxRetries) with true
    by (symmetry; apply Z.leb_le; apply Ha).
  cbn [orb].
  destruct (afterCall maxRetries st (world (List.length (requests net))))
    as [c1 | st' ms] eqn:E.
  - intros H msg. injection H as <- <-. unfold afterCall in E.
    destruct (world (List.length (requests net)));
      repeat match type of E with
             | context [if ?b then _ else _] => destruct b
             end; try discriminate E; injection E as <-; discriminate.
  - intros H. refine (IH _ _ _ _ _ _ H);
      destruct (afterCall_invariant _ _ _ _ _ Ha Hr E)
        as [(_ & ? & ? & ? & _) | (_ & ? & ? & ? & _)];
      unfold maxRateLimitRetries in *; lia.
Qed.

Lemma makeRequest_last_outcome :
  forall world endpoint maxRetries net c net',
    makeRequest world endpoint maxRetries net = Some (c, net') ->
    match c with
    | Return data =>
        exists i, List.length (requests net') = S i /\
                  (List.length (requests net) <= i)%nat /\
                  world i = Response data
    | Throw (RequestError o) =>
        exists i, List.length (requests net') = S i /\
                  (List.length (requests net) <= i)%nat /\
                  world i = o /\ forall data, o <> Response data
    | Throw (PlainError _) => maxRetries <= 0 /\ net' = net
    end.
Proof.
  intros world endpoint maxRetries net c net' H.
  pose proof (makeRequest_loop_last_outcome _ _ _ _ _ _ _ _ H) as Hlast.
  destruct c as [data | [o | msg]]; try exact Hlast.
  destruct (Z.le_gt_cases maxRetries 0) as [Hmax | Hmax].
  - rewrite makeRequest_no_budget in H by exact Hmax.
    injection H as _ <-. split; [exact Hmax | reflexivity].
  - exfalso. unfold makeRequest in H.
    refine (makeRequest_loop_no_plain_error _ _ _ _ _ _ _ _ _ _ H msg eq_refl);
      cbn; unfold maxRateLimitRetries; lia.
Qed.

(** X13. What [makeRequest] gives back is what the last request of the
    call met: a payload is the body of a successful response, an error is
    the rejection of the last request; the error made up by [makeRequest]
    itself arises only when no attempt is allowed, before any request. *)
Theorem makeRequest_result_is_last_outcome :
  forall world endpoint maxRetries net c net',
    makeRequest world endpoint maxRetries net = Some (c, net') ->
    match c with
    | Return data =>
        exists i, List.length (requests net') = S i /\
                  (List.length (requests net) <= i)%nat /\
                  world i = Response data
    | Throw (RequestError o) =>
        exists i, List.length (requests net') = S i /\
                  (List.length (requests net) <= i)%nat /\
                  world i = o /\ forall data, o <> Response data
    | Throw (PlainError _) => maxRetries <= 0 /\ net' = net
    end.
Proof. exact makeRequest_last_outcome. Qed.

Lemma makeRequest_result_is_last_outcome_witness :
  exists i, List.length (requests (send (PatientsPage 1) net0)) = S i /\
            (List.length (requests net0) <= i)%nat /\
            endless_world i = Response full_page.
Proof.
  apply (makeRequest_result_is_last_outcome endless_world (PatientsPage 1) 3
           net0 (Return full_page) (send (PatientsPage 1) net0)).
  reflexivity.
Defined.

Lemma wait_budget_facts : forall a r,
  1 <= a <= 3 -> 0 <= r <= 8 ->
  let wb a r := wait_budget {| attempt := a; rateLimitAttempts := r |} in
  0 <= wb a r /\
  (r + 1 <= 8 -> 3000 * (r + 1) + wb a (r + 1) <= wb a r) /\
  (a + 1 <= 3 -> 1000 * a + wb (a + 1) 0 <= wb a r).
Proof.
  intros a r Ha Hr.
  assert (Ea : a = 1 \/ a = 2 \/ a = 3) by lia.
  assert (Er : r = 0 \/ r = 1 \/ r = 2 \/ r = 3 \/ r = 4 \/ r = 5 \/ r = 6
               \/ r = 7 \/ r = 8) by lia.
  destruct Ea as [-> | [-> | ->]];
    destruct Er as [-> | [-> | [-> | [-> | [-> | [-> | [-> | [-> | ->]]]]]]]];
    repeat split; intros; first [lia | vm_compute; discriminate].
Qed.

Lemma makeRequest_loop_wait : forall world endpoint fuel st net c net',
  1 <= attempt st <= 3 ->
  0 <= rateLimitAttempts st <= maxRateLimitRetries ->
  makeRequest_loop fuel world endpoint 3 st net = Some (c, net') ->
  waited net' - waited net <= wait_budget st.
Proof.
  intros world endpoint.
  induction fuel as [| fuel IH]; intros st net c net' Ha Hr;
    cbn [makeRequest_loop]; [discriminate|].
  replace (attempt st <=? 3) with true by (symmetry; apply Z.leb_le; apply Ha).
  cbn [orb].
  pose proof Hr as Hr'. unfold maxRateLimitRetries in Hr'.
  destruct (wait_budget_facts (attempt st) (rateLimitAttempts st) Ha Hr')
    as (H0 & H429 & Herr).
  assert (Est : {| attempt := attempt st;
                   rateLimitAttempts := rateLimitAttempts st |} = st)
    by (destruct st; reflexivity).
  rewrite Est in *.
  destruct (afterCall 3 st (world (List.length (requests net))))
    as [c1 | st' ms] eqn:E.
  - intros H. injection H as <- <-. cbn [send waited]. lia.
  - intros H. apply IH in H.
    + cbn [delay send waited] in H.
      destruct (afterCall_invariant _ _ _ _ _ Ha Hr E)
        as [(_ & E1 & E2 & E3 & ->) | (_ & E1 & E2 & E3 & E4)];
        destruct st' as [a' r']; cbn [attempt rateLimitAttempts] in *;
        subst a' r'; unfold maxRateLimitRetries in *; lia.
    + destruct (afterCall_invariant _ _ _ _ _ Ha Hr E)
        as [(_ & ? & ? & ? & _) | (_ & ? & ? & ? & _)]; lia.
    + destruct (afterCall_invariant _ _ _ _ _ Ha Hr E)
        as [(_ & ? & ? & ? & _) | (_ & ? & ? & ? & _)];
        unfold maxRateLimitRetries in *; lia.
Qed.

(** X14. With the three attempts the program allows, one call spends at
    most 327 000 ms in backoff delays, and a server can make it spend
    exactly that. *)
Theorem makeRequest_wait_bound :
  (forall world endpoint net c net',
      makeRequest world endpoint 3 net = Some (c, net') ->
      waited net' - waited net <= 327000) /\
  (exists c net',
      makeRequest slowest_world (PatientsPage 1) 3 net0 = Some (c, net') /\
      waited net' = 327000).
Proof.
  split.
  - intros world endpoint net c net' H. unfold makeRequest in H.
    apply makeRequest_loop_wait in H;
      [exact H | cbn; lia | cbn; unfold maxRateLimitRetries; lia].
  - eexists. eexists. split; [cbv; reflexivity | reflexivity].
Qed.

Lemma makeRequest_wait_bound_witness :
  waited (delay 3000 (send (PatientsPage 1) (send (PatientsPage 1) net0)))
  - waited net0 <= 327000.
Proof.
  apply (proj1 makeRequest_wait_bound limited_then_ok (PatientsPage 1) net0
           (Return (JArr [JStr "ok"]))).
  vm_compute. reflexivity.
Defined.

Lemma net_eta : forall net rs w,
  rs = requests net -> w = waited net -> {| requests := rs; waited := w |} = net.
Proof. intros [rs' w'] rs w -> ->. reflexivity. Qed.

(** A run of 429s within the rate-limit budget only advances the
    rate-limit counter. *)
Lemma run_of_429 : forall world endpoint maxRetries k fuel a r net,
  a <= maxRetries -> r + Z.of_nat k <= maxRateLimitRetries ->
  (forall i, (i < k)%nat ->
     world (List.length (requests net) + i)%nat = HttpError 429) ->
  makeRequest_loop (k + fuel) world endpoint maxRetries
    {| attempt := a; rateLimitAttempts := r |} net
  = makeRequest_loop fuel world endpoint maxRetries
      {| attempt := a; rateLimitAttempts := r + Z.of_nat k |}
      {| requests := (requests net ++ repeat endpoint k)%list;
         waited := waited net + backoff_429 r k |}.
Proof.
  intros world endpoint maxRetries.
  induction k as [| k IH]; intros fuel a r net Ha Hr Hw.
  - cbn [Nat.add repeat backoff_429 Z.of_nat].
    rewrite Z.add_0_r.
    rewrite (net_eta net) by (rewrite ?app_nil_r, ?Z.add_0_r; reflexivity).
    reflexivity.
  - cbn [Nat.add makeRequest_loop attempt rateLimitAttempts].
    replace (a <=? maxRetries) with true by (symmetry; apply Z.leb_le; exact Ha).
    cbn [orb].
    rewrite <- (Nat.add_0_r (List.length (requests net))), Hw by lia.
    unfold afterCall. cbn [status_is status_of rateLimitAttempts attempt].
    change (429 =? 429) with true. cbv iota.
    replace (r + 1 <=? maxRateLimitRetries) with true
      by (symmetry; apply Z.leb_le; lia).
    rewrite IH.
    + f_equal.
      * f_equal. lia.
      * cbn [delay send requests waited backoff_429 repeat].
        f_equal; [rewrite <- app_assoc; reflexivity | lia].
    + exact Ha.
    + lia.
    + intros i Hi. cbn [delay send requests]. rewrite length_app.
      cbn [List.length]. rewrite <- Hw with (i := S i) by lia. f_equal. lia.
Qed.

(** X15. Rate-limit exhaustion: when the first nine responses are all
    429, the call waits 3, 6, ..., 24 seconds after the first eight and
    rethrows the ninth, nine requests in all. *)
Theorem nine_rate_limits_exhaust : forall world endpoint net,
  (forall i, (i < 9)%nat ->
     world (List.length (requests net) + i)%nat = HttpError 429) ->
  makeRequest world endpoint 3 net
  = Some (Throw (RequestError (HttpError 429)),
          {| requests := (requests net ++ repeat endpoint 9)%list;
             waited := waited net + 108000 |}).
Proof.
  intros world endpoint net Hw. unfold makeRequest.
  change (retry_fuel 3) with (8 + 21)%nat.
  rewrite run_of_429;
    [| lia | unfold maxRateLimitRetries; cbn; lia | intros i Hi; apply Hw; lia].
  cbn [makeRequest_loop attempt rateLimitAttempts requests].
  change (1 <=? 3) with true. cbn [orb].
  rewrite length_app, repeat_length, Hw by lia.
  cbn [afterCall status_is status_of rateLimitAttempts].
  change (429 =? 429) with true. cbv iota.
  change (0 + Z.of_nat 8 + 1 <=? maxRateLimitRetries) with false. cbv iota.
  unfold send. cbn [requests waited]. rewrite <- app_assoc.
  reflexivity.
Qed.

Lemma nine_rate_limits_exhaust_witness :
  makeRequest (fun _ => HttpError 429) (PatientsPage 1) 3 net0
  = Some (Throw (RequestError (HttpError 429)),
          {| requests := (requests net0 ++ repeat (PatientsPage 1) 9)%list;
             waited := waited net0 + 108000 |}).
Proof.
  apply (nine_rate_limits_exhaust (fun _ => HttpError 429)).
  intros i _. reflexivity.
Defined.


(** X16. Server-error exhaustion: when the first three responses are
    500, 502 or 503, the call waits one second, then two, and rethrows the
    third error, three requests in all. *)
Theorem three_server_errors_exhaust : forall world endpoint net,
  (forall i, (i < 3)%nat ->
     is_server_error (world (List.length (requests net) + i)%nat) = true) ->
  makeRequest world endpoint 3 net
  = Some (Throw (RequestError (world (List.length (requests net) + 2)%nat)),
          {| requests := (requests net ++ repeat endpoint 3)%list;
             waited := waited net + 3000 |}).
Proof.
  intros world endpoint net Hw. unfold makeRequest.
  change (retry_fuel 3) with (S (S (S 26))).
  pose proof (Hw 0%nat ltac:(lia)) as H0. rewrite Nat.add_0_r in H0.
  pose proof (Hw 1%nat ltac:(lia)) as H1.
  pose proof (Hw 2%nat ltac:(lia)) as H2.
  cbn [makeRequest_loop attempt rateLimitAttempts].
  change (1 <=? 3) with true. cbn [orb].
  rewrite (afterCall_server_error 3 _ _ H0).
  cbn [attempt rateLimitAttempts]. change (1 <? 3) with true. cbv iota.
  change (1 + 1 <=? 3) with true. cbn [orb].
  replace (List.length (requests (delay (1000 * 1) (send endpoint net))))
    with (List.length (requests net) + 1)%nat
    by (cbn [delay send requests]; rewrite length_app; reflexivity).
  rewrite (afterCall_server_error 3 _ _ H1).
  cbn [attempt rateLimitAttempts]. change (1 + 1 <? 3) with true. cbv iota.
  change (1 + 1 + 1 <=? 3) with true. cbn [orb].
  replace (List.length
             (requests (delay (1000 * (1 + 1))
                          (send endpoint
                             (delay (1000 * 1) (send endpoint net))))))
    with (List.length (requests net) + 2)%nat
    by (cbn [delay send requests]; rewrite !length_app; cbn [List.length]; lia).
  rewrite (afterCall_server_error 3 _ _ H2).
  cbn [attempt rateLimitAttempts]. change (1 + 1 + 1 <? 3) with false. cbv iota.
  unfold delay, send. cbn [requests waited]. rewrite <- !app_assoc.
  change (1 + 1 <=? 3) with true. change (1 + 1 + 1 <=? 3) with true.
  cbn [orb]. do 3 f_equal. lia.
Qed.

Lemma three_server_errors_exhaust_witness :
  makeRequest (fun _ => HttpError 503) (PatientsPage 1) 3 net0
  = Some (Throw (RequestError (HttpError 503)),
          {| requests := (requests net0 ++ repeat (PatientsPage 1) 3)%list;
             waited := waited net0 + 3000 |}).
Proof.
  apply (three_server_errors_exhaust (fun _ => HttpError 503)).
  intros i _. reflexivity.
Defined.

(** ** More on fetchAllPatients and main *)





Local Open Scope list_scope.

Lemma makeRequest_first_response : forall world endpoint net data,
  world (List.length (requests net)) = Response data ->
  makeRequest world endpoint 3 net = Some (Return data, send endpoint net).
Proof.
  intros world endpoint net data Hw. unfold makeRequest.
  change (retry_fuel 3) with (S 28).
  cbn [makeRequest_loop attempt]. change (1 <=? 3) with true. cbn [orb].
  rewrite Hw. reflexivity.
Qed.

Lemma fetch_loop_served : forall world last,
  last_page last = true ->
  forall fulls st net,
    hasMore st = true ->
    (forall i d, nth_error fulls i = Some d ->
       world (List.length (requests net) + i)%nat = Response d /\
       full_payload d) ->
    world (List.length (requests net) + List.length fulls)%nat
      = Response last ->
    exists net',
      fetch_loop (List.length fulls + 2) world st net
      = Some (Return (allPatients st
                      ++ flat_map (fun d => page_records (Return d)) fulls
                      ++ page_records (Return last)), net') /\
      requests net'
      = requests net
        ++ map PatientsPage (pages_from (page st) (S (List.length fulls))) /\
      waited net'
      = waited net + 300 * Z.of_nat (List.length fulls)
        + match page_records (Return last) with [] => 0 | _ => 300 end.
Proof.
  intros world last Hlast.
  induction fulls as [| d fulls IH]; intros st net Hmore Hfull Hend.
  - cbn [List.length Nat.add fetch_loop flat_map app pages_from map].
    rewrite Hmore. rewrite Nat.add_0_r in Hend.
    unfold fetch_iteration.
    rewrite (makeRequest_first_response _ _ _ _ Hend).
    unfold last_page in Hlast. apply andb_prop in Hlast as [Ht Hl].
    cbn [afterFetch try_catch page_records]. rewrite Ht. cbn [negb].
    destruct (extractPatients last) as [[| p rest]|];
      cbn [try_catch hasMore allPatients].
    + eexists. split; [rewrite app_nil_r; reflexivity|].
      cbn [send requests waited]. split; [reflexivity | lia].
    + apply Nat.ltb_lt in Hl.
      replace (5 <=? Z.of_nat (List.length (p :: rest))) with false
        by (symmetry; apply Z.leb_gt; lia).
      eexists. split; [reflexivity|].
      cbn [delay send requests waited]. split; [reflexivity | lia].
    + eexists. split; [rewrite app_nil_r; reflexivity|].
      cbn [send requests waited]. split; [reflexivity | lia].
  - destruct (Hfull 0%nat d eq_refl) as [Hw (Ht & l & Hx & Hlen)].
    rewrite Nat.add_0_r in Hw.
    cbn [List.length Nat.add fetch_loop]. rewrite Hmore.
    unfold fetch_iteration. rewrite (makeRequest_first_response _ _ _ _ Hw).
    cbn [afterFetch try_catch]. rewrite Ht, Hx. cbn [negb].
    destruct l as [| p rest]; [cbn in Hlen; lia|]. cbn [try_catch].
    replace (5 <=? Z.of_nat (List.length (p :: rest))) with true
      by (symmetry; apply Z.leb_le; lia).
    assert (Hlen1 : List.length
                      (requests (delay 300 (send (PatientsPage (page st)) net)))
                    = S (List.length (requests net))).
    { cbn [delay send requests]. rewrite length_app. cbn. lia. }
    edestruct (IH {| allPatients := allPatients st ++ p :: rest;
                     page := page st + 1; hasMore := true |}
                 (delay 300 (send (PatientsPage (page st)) net)))
      as (net' & Hrun & Hreq & Hwait); [reflexivity | | |].
    + intros i d' Hi. rewrite Hlen1.
      destruct (Hfull (S i) d' Hi) as [Hwi Hfi]. split; [|exact Hfi].
      rewrite <- Hwi. f_equal. lia.
    + rewrite Hlen1, <- Hend. f_equal. cbn [List.length]. lia.
    + exists net'. split; [|split].
      * rewrite Hrun. cbn [allPatients flat_map page_records].
        rewrite Ht, Hx, <- !app_assoc. reflexivity.
      * rewrite Hreq. cbn [delay send requests page pages_from map].
        rewrite <- app_assoc. reflexivity.
      * rewrite Hwait. cbn [delay send waited List.length]. lia.
Qed.

(** X18. Against a server that answers each page at the first request,
    with full pages and then a last one, the run asks for each page once,
    pages 1, 2, ... in turn, returns all the records in order, and waits
    300 ms after each page that had records. *)
Theorem fetchAllPatients_served : forall world fulls last net,
  (forall i d, nth_error fulls i = Some d ->
     world (List.length (requests net) + i)%nat = Response d /\
     full_payload d) ->
  world (List.length (requests net) + List.length fulls)%nat = Response last ->
  last_page last = true ->
  exists net',
    fetchAllPatients (List.length fulls + 2) world net
    = Some (Return (flat_map (fun d => page_records (Return d)) fulls
                    ++ page_records (Return last)), net') /\
    requests net'
    = requests net ++ map PatientsPage (pages_from 1 (S (List.length fulls))) /\
    waited net'
    = waited net + 300 * Z.of_nat (List.length fulls)
      + match page_records (Return last) with [] => 0 | _ => 300 end.
Proof.
  intros world fulls last net Hfull Hend Hlast.
  apply (fetch_loop_served world last Hlast fulls fetch_init net);
    [reflexivity | exact Hfull | exact Hend].
Qed.

Lemma fetchAllPatients_served_witness :
  exists net',
    fetchAllPatients 18 sixteen_pages_world net0
    = Some (Return (flat_map (fun d => page_records (Return d))
                      (repeat full_page 16)
                    ++ page_records (Return (JObj [("data", JArr [])]))),
            net') /\
    requests net'
    = requests net0 ++ map PatientsPage (pages_from 1 17) /\
    waited net' = waited net0 + 300 * 16 + 0.
Proof.
  apply (fetchAllPatients_served sixteen_pages_world (repeat full_page 16)
           (JObj [("data", JArr [])]) net0); [| reflexivity | reflexivity].
  intros i d Hi.
  assert (Hlt : (i < List.length (repeat full_page 16))%nat)
    by (apply nth_error_Some; rewrite Hi; discriminate).
  rewrite repeat_length in Hlt.
  assert (Hd : d = full_page).
  { apply nth_error_In in Hi. apply repeat_spec in Hi. exact Hi. }
  subst d. split.
  - cbn [net0 requests List.length Nat.add]. unfold sixteen_pages_world.
    replace (i <? 16)%nat with true by (symmetry; apply Nat.ltb_lt; exact Hlt).
    reflexivity.
  - split; [reflexivity|]. exists five_records. split; [reflexivity|].
    cbn. lia.
Defined.

Local Open Scope string_scope.
Local Open Scope Z_scope.

Lemma fetch_loop_requests_pages : forall world fuel st net c net',
  fetch_loop fuel world st net = Some (c, net') ->
  exists l, requests net' = (requests net ++ l)%list /\
            Forall is_page_request l.
Proof.
  intros world. induction fuel as [| fuel IH]; intros st net c net';
    cbn [fetch_loop]; [discriminate|].
  destruct (hasMore st).
  - destruct (makeRequest_3_requests world (PatientsPage (page st)) net)
      as (c1 & net1 & m & Hrun & Hreq).
    unfold fetch_iteration. rewrite Hrun.
    destruct (try_catch (afterFetch st c1 net1)
                (fun _ => Return (onFetchError st net1)))
      as [[st' net2] | e] eqn:E.
    + intros H. apply IH in H as (l & Hl & Hpages).
      assert (Hsame : requests net2 = requests net1).
      { revert E. unfold afterFetch.
        destruct c1 as [data | e1]; cbn [try_catch];
          [destruct (truthy data); cbn [negb];
           [destruct (extractPatients data) as [[| p rest]|] |] |];
          cbn [try_catch]; intros E; injection E as <- <-; reflexivity. }
      exists (repeat (PatientsPage (page st)) (S m) ++ l)%list.
      split.
      * rewrite Hl, Hsame, Hreq, app_assoc. reflexivity.
      * apply Forall_app. split; [|exact Hpages].
        apply Forall_forall. intros ep Hin. apply repeat_spec in Hin.
        exists (page st). exact Hin.
    + intros H. injection H as <- <-. exists []. rewrite app_nil_r.
      split; [reflexivity | constructor].
  - intros H. injection H as <- <-. exists []. rewrite app_nil_r.
    split; [reflexivity | constructor].
Qed.

(** X19. [main] sends the assessment only after the fetch has returned
    at least one record, and what it sends is [processPatients] of the
    records fetched: with no record it ends without a submit request;
    otherwise the page requests are followed by 1 to 27 submit requests,
    all with that body, and the exit code is 1 only when they failed. *)
Theorem main_submits_the_assessment : forall fuel world net status net',
  main fuel world net = Some (status, net') ->
  exists patients net1 pages k,
    fetchAllPatients fuel world net = Some (Return patients, net1) /\
    requests net1 = (requests net ++ pages)%list /\
    Forall is_page_request pages /\
    requests net'
    = (requests net1
       ++ repeat (SubmitAssessment (processPatients patients)) k)%list /\
    (patients = [] -> k = 0%nat /\ status = Completed) /\
    (patients <> [] -> 1 <= Z.of_nat k <= 27) /\
    (status = Exited 1 ->
       exists e, submitAssessment world (processPatients patients) net1
                 = Some (Throw e, net')).
Proof.
  intros fuel world net status net'. unfold main.
  destruct (fetchAllPatients fuel world net) as [[[patients | e] net1]|] eqn:Ef;
    [| exfalso; exact (fetch_loop_never_throws _ _ _ _ _ _ Ef) | discriminate].
  destruct (fetch_loop_requests_pages _ _ _ _ _ _ Ef) as (pages & Hreq & Hpages).
  destruct patients as [| p rest]; cbn [List.length Nat.eqb].
  - intros H. injection H as <- <-. exists [], net1, pages, 0%nat.
    cbn [repeat]. rewrite app_nil_r.
    repeat split; try assumption; try reflexivity; try discriminate.
    intros Hne. contradiction.
  - set (patients := p :: rest).
    destruct (makeRequest_count_bounds world
                (SubmitAssessment (processPatients patients)) 3 net1)
      as (c & net2 & k & Hrun & Hreq2 & Hk & _); [lia|].
    unfold submitAssessment. rewrite Hrun.
    destruct c as [response | e]; intros H; injection H as <- <-;
      exists patients, net1, pages, k;
      (repeat split; try assumption; try lia; try discriminate).
    intros _. exists e. rewrite Hrun. reflexivity.
Qed.

Lemma main_submits_the_assessment_witness :
  exists status net',
    main 6 three_pages_world net0 = Some (status, net') /\
    exists patients net1 pages k,
      fetchAllPatients 6 three_pages_world net0 = Some (Return patients, net1) /\
      requests net1 = (requests net0 ++ pages)%list /\
      Forall is_page_request pages /\
      requests net'
      = (requests net1
         ++ repeat (SubmitAssessment (processPatients patients)) k)%list /\
      (patients = [] -> k = 0%nat /\ status = Completed) /\
      (patients <> [] -> 1 <= Z.of_nat k <= 27) /\
      (status = Exited 1 ->
         exists e, submitAssessment three_pages_world (processPatients patients)
                     net1
                   = Some (Throw e, net')).
Proof.
  eexists. eexists. split; [cbv; reflexivity|].
  apply (main_submits_the_assessment 6 three_pages_world net0).
  vm_compute. reflexivity.
Defined.

(** *** Age given as a string *)

Lemma trimStart_shape : forall s,
  exists ws, s = ws ++ trimStart s /\ spaces_only ws = true.
Proof.
  induction s as [| c s (ws & IH & Hws)]; [exists ""; split; reflexivity|].
  cbn [trimStart]. destruct (is_space c) eqn:E.
  - exists (String c ws). cbn. rewrite E, Hws, <- IH. split; reflexivity.
  - exists "". split; reflexivity.
Qed.

Lemma trimEnd_shape : forall s,
  exists ws, s = trimEnd s ++ ws /\ spaces_only ws = true.
Proof.
  induction s as [| c s (ws & IH & Hws)]; [exists ""; split; reflexivity|].
  cbn [trimEnd]. destruct (trimEnd s) as [| c' r] eqn:Et.
  - cbn in IH. subst s. destruct (is_space c) eqn:E.
    + exists (String c ws). cbn. rewrite E, Hws. split; reflexivity.
    + exists ws. split; [reflexivity | exact Hws].
  - exists ws. cbn. rewrite IH at 1. split; [reflexivity | exact Hws].
Qed.

Lemma spaces_start_without_digit : forall ws,
  spaces_only ws = true -> starts_without_digit ws.
Proof.
  intros [| c ws] H; [exact I|]. cbn in *. apply andb_prop in H as [H _].
  destruct c as [[|] [|] [|] [|] [|] [|] [|] [|]]; vm_compute in H;
    try discriminate H; reflexivity.
Qed.

Lemma all_digits_spec : forall s,
  all_digits s = true <-> nonempty_digits s.
Proof.
  intros s. unfold all_digits, nonempty_digits. split.
  - destruct (span_digits s) as [d r] eqn:E.
    destruct (span_digits_spec _ _ _ E) as (-> & Hd & _).
    destruct d as [| c d]; [discriminate|]. destruct r; [|discriminate].
    intros _. rewrite append_empty_r. split; [discriminate | exact Hd].
  - intros [Hne Hd]. rewrite <- (append_empty_r s) at 1.
    rewrite (span_digits_app _ EmptyString Hd I).
    destruct s; [contradiction | reflexivity].
Qed.

(** A string that trims to digits is those digits between white space,
    and [parseInt] reads exactly them. *)
Lemma trimmed_digits : forall s,
  all_digits (trim s) = true ->
  digits_or_spaces s = true /\ s <> EmptyString /\
  parseInt10_string s = of_Z (digits_value (trim s)).
Proof.
  intros s H. apply all_digits_spec in H as [Hne Hd]. unfold trim in *.
  destruct (trimStart_shape s) as (ws1 & Hs & Hws1).
  destruct (trimEnd_shape (trimStart s)) as (ws2 & Ht & Hws2).
  set (d := trimEnd (trimStart s)) in *.
  split; [|split].
  - rewrite Hs, Ht. clear - Hd Hws1 Hws2.
    induction ws1 as [| c ws1 IH]; cbn in *.
    + induction d as [| c d IHd]; cbn in *.
      * induction ws2 as [| c ws2 IHw]; cbn in *; [reflexivity|].
        apply andb_prop in Hws2 as [Hc Hw]. rewrite Hc, orb_true_r. auto.
      * apply andb_prop in Hd as [Hc Hd']. rewrite Hc. auto.
    + apply andb_prop in Hws1 as [Hc Hw]. rewrite Hc, orb_true_r. auto.
  - intros ->. apply Hne. reflexivity.
  - unfold parseInt10_string. rewrite Ht.
    destruct d as [| c d']; [contradiction|].
    pose proof Hd as Hc. cbn in Hc. apply andb_prop in Hc as [Hc _].
    change (String c d' ++ ws2) with (String c (d' ++ ws2)).
    rewrite (strip_sign_digit c _ Hc).
    change (String c (d' ++ ws2)) with (String c d' ++ ws2).
    rewrite (span_digits_app _ ws2 Hd (spaces_start_without_digit _ Hws2)).
    reflexivity.
Qed.

Lemma plain_char_upper : forall c,
  is_digit c || is_space c = true ->
  upper_char c = c /\
  forall a, In a ["U"; "I"; "E"; "N"]%char -> (a =? c)%char = false.
Proof.
  intros [[|] [|] [|] [|] [|] [|] [|] [|]] H; vm_compute in H;
    try discriminate H; (split; [reflexivity|]);
    intros a [<- | [<- | [<- | [<- | []]]]]; reflexivity.
Qed.

Lemma no_age_token_in_plain : forall s,
  digits_or_spaces s = true ->
  contains_token age_invalid_tokens (toUpperCase s) = false.
Proof.
  intros s H.
  assert (Hinc : forall a t, In a ["U"; "I"; "E"; "N"]%char ->
                   includes (String a t) (toUpperCase s) = false).
  { intros a t Ha. induction s as [| c s IH]; [reflexivity|].
    cbn in H. apply andb_prop in H as [Hc Hs].
    destruct (plain_char_upper c Hc) as [Hu Hneq].
    cbn [toUpperCase includes prefix]. rewrite Hu.
    destruct (ascii_dec a c) as [-> | _].
    - specialize (Hneq c Ha). rewrite Ascii.eqb_refl in Hneq. discriminate.
    - cbn [orb]. exact (IH Hs). }
  unfold contains_token, age_invalid_tokens. cbn [existsb].
  rewrite !Hinc by (cbn; auto 10). reflexivity.
Qed.

(** X20. For an age given as a string, [getAgeRisk] raises no issue
    exactly when the string, white space around it removed, is made of
    digits and its value is above zero; the search for the invalid tokens
    rejects nothing that the digit test would accept. The score is then
    that of the value. *)
Theorem getAgeRisk_string : forall s,
  (hasIssue (getAgeRisk (JStr s)) = false <->
   all_digits (trim s) = true /\
   num_gt (of_Z (digits_value (trim s))) (of_Z 0) = true) /\
  (hasIssue (getAgeRisk (JStr s)) = false ->
   parseInt10 (JStr s) = of_Z (digits_value (trim s))).
Proof.
  intros s.
  assert (Hle : forall z, num_le (of_Z z) (of_Z 0) = negb (num_gt (of_Z z) (of_Z 0))).
  { intros z. unfold num_gt, num_le. pose proof (b64_not_NaN (inject_Z z)) as Hn.
    unfold of_Z at 1 3. destruct (b64 (inject_Z z)); [discriminate | |];
      reflexivity. }
  unfold getAgeRisk, parseInt10. cbn [ToString is_string is_null is_undefined
                                      is_empty_string truthy].
  destruct (all_digits (trim s)) eqn:Ed.
  - destruct (trimmed_digits s Ed) as (Hplain & Hne & Hparse).
    rewrite (no_age_token_in_plain s Hplain), Hparse.
    destruct s as [| c s]; [contradiction|]. cbn [is_empty negb andb orb].
    unfold of_Z at 1. rewrite b64_not_NaN. cbn [orb]. fold (of_Z (digits_value (trim (String c s)))).
    rewrite Hle.
    destruct (num_gt (of_Z (digits_value (trim (String c s)))) (of_Z 0));
      cbn [negb].
    + repeat match goal with
             | |- context [if ?b then _ else _] => destruct b
             end; cbn [hasIssue]; (split; [split|]); auto.
    + cbn [hasIssue]. split; [split|]; try discriminate;
        try (intros; reflexivity).
      intros [_ H]. discriminate H.
  - rewrite orb_true_r, andb_true_r.
    destruct s as [| c s]; cbn [is_empty negb andb orb hasIssue];
      (split; [split; [discriminate | intros [H _]; discriminate H]
              | discriminate]).
Qed.

Lemma getAgeRisk_string_witness :
  parseInt10 (JStr " 45 ") = of_Z (digits_value (trim " 45 ")).
Proof.
  apply (proj2 (getAgeRisk_string " 45 ")). reflexivity.
Defined.
